(** * Question answering with a multi-query retriever

    A shallow embedding of the notebook
    [lab-chatbot-with-multi-query-retriever.ipynb]: the ingestion cells
    (index reset, [metadata_func], the per-document indexing loop), the
    retriever built by [MultiQueryRetriever.from_llm] with its default
    arguments, and the answer chain
    [_context | LLM_CONTEXT_PROMPT | llm].

    Python [str] values are modelled as [string], one [ascii] per code
    point below 256.  The external services (language model, similarity
    search, the indexing round trip) are oracles that either return or
    raise.  The [langchain] functions the notebook calls
    ([LineListOutputParser.parse], [MultiQueryRetriever], [format_document])
    are transcribed next to the notebook's own code, under their library
    names. *)

From Stdlib Require Import String Ascii List ZArith Lia DecimalString.
From stdpp Require Import base option list gmap strings.

Local Open Scope stdpp_scope.
Set Warnings "-register-all".

(** ** Python strings *)

Module PyStr.

Definition chr (n : nat) : ascii := ascii_of_nat n.

Definition LF : ascii := chr 10.
Definition QUOTE : ascii := chr 34.

(** The one-character strings that string literals cannot spell. *)
Definition nl : string := String LF EmptyString.
Definition dq : string := String QUOTE EmptyString.

(** [str.isspace] on one code point below 256: TAB, LF, VT, FF, CR,
    FS, GS, RS, US, SPACE, NEL and NBSP. *)
Definition is_space (c : ascii) : bool :=
  let n := nat_of_ascii c in
  ((9 <=? n) && (n <=? 13)) || ((28 <=? n) && (n <=? 32))
  || (n =? 133) || (n =? 160).

(** [s.lstrip()] *)
Fixpoint lstrip (s : string) : string :=
  match s with
  | EmptyString => EmptyString
  | String c s' => if is_space c then lstrip s' else s
  end.

(** [s.rstrip()] *)
Fixpoint rstrip (s : string) : string :=
  match s with
  | EmptyString => EmptyString
  | String c s' =>
      match rstrip s' with
      | EmptyString => if is_space c then EmptyString else String c EmptyString
      | r => String c r
      end
  end.

(** [s.strip()] *)
Definition strip (s : string) : string := rstrip (lstrip s).

(** [s.split(sep)] for a one-character separator: never the empty list,
    and empty fields are kept. *)
Fixpoint split (sep : ascii) (s : string) : list string :=
  match s with
  | EmptyString => [EmptyString]
  | String c s' =>
      if decide (c = sep) then EmptyString :: split sep s'
      else match split sep s' with
           | [] => [String c EmptyString]
           | field :: fields => String c field :: fields
           end
  end.

(** [sep.join(parts)] *)
Definition join (sep : string) (parts : list string) : string :=
  String.concat sep parts.

(** [c in s] *)
Fixpoint contains (c : ascii) (s : string) : bool :=
  match s with
  | EmptyString => false
  | String c' s' => if decide (c' = c) then true else contains c s'
  end.

(** [s.replace(c, "")] for a one-character [c] *)
Fixpoint remove (c : ascii) (s : string) : string :=
  match s with
  | EmptyString => EmptyString
  | String c' s' => if decide (c' = c) then remove c s' else String c' (remove c s')
  end.

(** [s.startswith(p)] *)
Fixpoint startswith (p s : string) : bool :=
  match p, s with
  | EmptyString, _ => true
  | String a p', String b s' => if decide (a = b) then startswith p' s' else false
  | String _ _, EmptyString => false
  end.

(** Truthiness of a [str]: only the empty string is falsy. *)
Definition truthy (s : string) : bool :=
  match s with EmptyString => false | String _ _ => true end.

End PyStr.

(** ** Exceptions and values *)

Inductive exn : Type :=
  | ValueError (msg : string)
  | KeyError (key : string)
  | NotFoundError (index : string)
  | ServiceError (detail : string).

#[global] Instance exn_eq_dec : EqDecision exn.
Proof. solve_decision. Defined.

(** A statement either returns a value or raises. *)
Abbreviation result A := (exn + A)%type.
Abbreviation Return x := (inr x).
Abbreviation Raise e := (inl e).

(** The values held by a [Document]'s metadata in this notebook:
    [JSONLoader] stores [source] (a [str]) and [seq_num] (an [int]), and
    [metadata_func] stores [str]s only.  On these two kinds Python's [==]
    is structural equality. *)
Inductive pyval : Type :=
  | PyStr (s : string)
  | PyInt (z : Z).

#[global] Instance pyval_eq_dec : EqDecision pyval.
Proof. solve_decision. Defined.

(** [str(v)], which is also how [str.format] renders [v]. *)
Definition str_of_pyval (v : pyval) : string :=
  match v with
  | PyStr s => s
  | PyInt z => NilZero.string_of_int (Z.to_int z)
  end.

(** [langchain]'s [Document]: text, a metadata dict, and the optional
    identifier a store may attach.  Two documents are [==] when all three
    agree. *)
Record Document : Type := mkDocument {
  page_content : string;
  metadata : gmap string pyval;
  doc_id : option string
}.

#[global] Instance Document_eq_dec : EqDecision Document.
Proof. solve_decision. Defined.

(** ** Ingestion: index reset, [metadata_func], the indexing loop *)

Module Ingest.

(** A value read by [json.load]; a record of the dataset is an object.
    Numbers with a fraction are left out. *)
Inductive json : Type :=
  | JNull
  | JBool (b : bool)
  | JInt (z : Z)
  | JStr (s : string)
  | JArr (items : list json)
  | JObj (fields : list (string * json)).

Section MetadataFunc.

(** [str] of a value that is not a [str] is its [repr]; the notebook
    never depends on its text, so it stays a parameter. *)
Variable repr : json -> string.

Definition str (v : json) : string :=
  match v with
  | JStr s => s
  | _ => repr v
  end.

(** [record.get(key, default)] *)
Definition get (record : gmap string json) (key : string) (default : json) : json :=
  match record !! key with
  | Some v => v
  | None => default
  end.

Definition metadata_func (record : gmap string json)
    (metadata : gmap string pyval) : gmap string pyval :=
  let metadata := <["name" := PyStr (str (get record "name" (JStr EmptyString)))]> metadata in
  let metadata := <["summary" := PyStr (str (get record "summary" (JStr EmptyString)))]> metadata in
  let metadata := <["url" := PyStr (str (get record "url" (JStr EmptyString)))]> metadata in
  let metadata := <["category" := PyStr (str (get record "category" (JStr EmptyString)))]> metadata in
  let metadata := <["updated_at" := PyStr (str (get record "updated_at" (JStr EmptyString)))]> metadata in
  metadata.

(** The keys [metadata_func] populates. *)
Definition metadata_keys : list string :=
  ["name"; "summary"; "url"; "category"; "updated_at"].

End MetadataFunc.

(** The cluster: index name to the chunks stored in it, oldest first. *)
Abbreviation ES := (gmap string (list Document)).

(** [es.indices.delete(index=..., ignore_unavailable=...)] *)
Definition indices_delete (index : string) (ignore_unavailable : bool)
    (es : ES) : result ES :=
  match es !! index with
  | Some _ => Return (delete index es)
  | None => if ignore_unavailable then Return es else Raise (NotFoundError index)
  end.

(** The chunks held by the index the notebook writes to. *)
Definition stored (es : ES) : list Document :=
  match es !! "index_store" with
  | Some chunks => chunks
  | None => []
  end.

(** The handle returned by [ElasticsearchStore.from_documents]. *)
Record ElasticsearchStore : Type := mkStore { index_name : string }.

(** What the cell prints. *)
Inductive line : Type :=
  | FailedToIndex (i : nat) (md : gmap string pyval)
  | ErrorLine (e : exn).

(** The notebook state the indexing cell reads and writes: the cluster,
    the variable [vectorstore] (unbound until a call succeeds), standard
    output, and the calls made so far. *)
Record Notebook : Type := mkNotebook {
  es : ES;
  vectorstore : option ElasticsearchStore;
  stdout : list line;
  attempted : list (nat * Document)
}.

Section Indexing.

(** Whether the round trip that embeds and writes one chunk raises,
    given the cluster it runs against. *)
Variable index_error : ES -> Document -> option exn.

(** [ElasticsearchStore.from_documents([doc], embedding=embeddings,
    index_name="index_store", ...)] *)
Definition from_documents (doc : Document) (es : ES)
    : ES * result ElasticsearchStore :=
  match index_error es doc with
  | Some e => (es, Raise e)
  | None => (<["index_store" := stored es ++ [doc]]> es,
             Return (mkStore "index_store"))
  end.

(** One iteration of [for i, doc in enumerate(docs)]: the [try] body
    and its [except Exception] handler. *)
Definition index_step (i : nat) (doc : Document) (nb : Notebook) : Notebook :=
  match from_documents doc (es nb) with
  | (es', Return vs) =>
      mkNotebook es' (Some vs) (stdout nb) (attempted nb ++ [(i, doc)])
  | (es', Raise e) =>
      mkNotebook es' (vectorstore nb)
        (stdout nb ++ [FailedToIndex i (metadata doc); ErrorLine e])
        (attempted nb ++ [(i, doc)])
  end.

Fixpoint index_loop (i : nat) (docs : list Document) (nb : Notebook) : Notebook :=
  match docs with
  | [] => nb
  | doc :: docs' => index_loop (S i) docs' (index_step i doc nb)
  end.

(** [enumerate(docs, start)] *)
Fixpoint enumerate (start : nat) (docs : list Document) : list (nat * Document) :=
  match docs with
  | [] => []
  | doc :: docs' => (start, doc) :: enumerate (S start) docs'
  end.

(** A run of the ingestion cells from top to bottom: the index is
    deleted, then [docs] (the output of the loader and splitter) are
    indexed one by one. *)
Definition ingestion (docs : list Document) (es0 : ES) : result Notebook :=
  match indices_delete "index_store" true es0 with
  | Raise e => Raise e
  | Return es1 => Return (index_loop 0 docs (mkNotebook es1 None [] []))
  end.

End Indexing.

End Ingest.

(** ** The question-answering pipeline *)

Module Chain.

Import PyStr.

(** What a prompt template hands to the language model. *)
Inductive Message : Type :=
  | HumanMessage (content : string).

Inductive PromptValue : Type :=
  | StringPromptValue (text : string)
  | ChatPromptValue (messages : list Message).

(** The effects of a request that can be observed from outside: the
    prompts sent to the language model, the queries sent to the passage
    store, and the lines logged by [langchain.retrievers.multi_query]. *)
Record World : Type := mkWorld {
  llm_calls : list PromptValue;
  searches : list string;
  log : list (list string)
}.

Definition M (A : Type) : Type := World -> World * result A.

#[global] Instance M_ret : MRet M := fun A x w => (w, Return x).

#[global] Instance M_bind : MBind M := fun A B f m w =>
  match m w with
  | (w', Return x) => f x w'
  | (w', Raise e) => (w', Raise e)
  end.

(** A pure computation that may raise, run inside a request. *)
Definition lift {A : Type} (r : result A) : M A := fun w => (w, r).

#[global] Instance result_ret : MRet (sum exn) := fun A x => Return x.

#[global] Instance result_bind : MBind (sum exn) := fun A B f r =>
  match r with
  | Return x => f x
  | Raise e => Raise e
  end.

(** *** Prompt templates *)

Inductive piece : Type :=
  | Lit (text : string)
  | Field (name : string).

Abbreviation PromptTemplate := (list piece).

Fixpoint input_variables (t : PromptTemplate) : list string :=
  match t with
  | [] => []
  | Lit _ :: t' => input_variables t'
  | Field name :: t' => name :: input_variables t'
  end.

(** [template.format] applied to the keyword arguments [kwargs] *)
Fixpoint format (t : PromptTemplate) (kwargs : gmap string pyval) : result string :=
  match t with
  | [] => Return EmptyString
  | Lit text :: t' =>
      match format t' kwargs with
      | Return rest => Return (text +:+ rest)
      | Raise e => Raise e
      end
  | Field name :: t' =>
      match kwargs !! name with
      | None => Raise (KeyError name)
      | Some v =>
          match format t' kwargs with
          | Return rest => Return (str_of_pyval v +:+ rest)
          | Raise e => Raise e
          end
      end
  end.

(** [LLM_DOCUMENT_PROMPT]: the template is the triple-quoted literal
    <<
    (newline)---(newline)SOURCE: {name}(newline){page_content}(newline)---(newline)
    >> *)
Definition LLM_DOCUMENT_PROMPT : PromptTemplate :=
  [ Lit (nl +:+ "---" +:+ nl +:+ "SOURCE: "); Field "name";
    Lit nl; Field "page_content";
    Lit (nl +:+ "---" +:+ nl) ].

(** [LLM_CONTEXT_PROMPT]: one human message built from this template. *)
Definition LLM_CONTEXT_PROMPT : PromptTemplate :=
  [ Lit ("You are an assistant for question-answering tasks. Use the following pieces of retrieved context to answer the question. If you don't know the answer, just say that you don't know. Be as verbose and educational in your response as possible. "
         +:+ nl +:+ "    " +:+ nl +:+ "    context: ");
    Field "context";
    Lit (nl +:+ "    Question: " +:+ dq);
    Field "question";
    Lit (dq +:+ nl +:+ "    Answer:" +:+ nl +:+ "    ") ].

(** [repr] of a list of variable names, which hold no quote and no
    backslash. *)
Definition py_repr_names (names : list string) : string :=
  "[" +:+ join ", " ((fun name => "'" +:+ name +:+ "'") <$> names) +:+ "]".

(** The message of the [ValueError] that [format_document] raises
    (langchain-core 0.3): the sentence on the required and the missing
    variables, then the line added by [create_message] for the error code
    [INVALID_PROMPT_INPUT]. *)
Definition missing_metadata_message (required_metadata missing_metadata : list string)
    : string :=
  "Document prompt requires documents to have metadata variables: "
  +:+ py_repr_names required_metadata
  +:+ ". Received document with missing metadata: "
  +:+ py_repr_names missing_metadata +:+ "." +:+ nl
  +:+ "For troubleshooting, visit: https://python.langchain.com/docs/troubleshooting/errors/INVALID_PROMPT_INPUT ".

(** [format_document(doc, prompt)]: the fields come from the metadata,
    with [page_content] for the text unless the metadata has a key of
    that name.  A variable of the prompt that the document does not have
    is a [ValueError]. *)
Definition format_document (doc : Document) (prompt : PromptTemplate) : result string :=
  let base_info : gmap string pyval :=
    metadata doc ∪ {[ "page_content" := PyStr (page_content doc) ]} in
  match filter (fun name => base_info !! name = None) (input_variables prompt) with
  | [] => format prompt base_info
  | missing_metadata =>
      let required_metadata :=
        filter (fun iv => iv ≠ "page_content") (input_variables prompt) in
      Raise (ValueError (missing_metadata_message required_metadata missing_metadata))
  end.

(** [[format_document(doc, document_prompt) for doc in docs]] *)
Fixpoint format_documents (docs : list Document) (document_prompt : PromptTemplate)
    : result (list string) :=
  match docs with
  | [] => Return []
  | doc :: docs' =>
      doc_string ← format_document doc document_prompt;
      doc_strings ← format_documents docs' document_prompt;
      Return (doc_string :: doc_strings)
  end.

Definition _combine_documents (docs : list Document) : result string :=
  let document_prompt := LLM_DOCUMENT_PROMPT in
  let document_separator := nl +:+ nl in
  doc_strings ← format_documents docs document_prompt;
  Return (join document_separator doc_strings).

(** *** [langchain.retrievers.multi_query] *)

(** [LineListOutputParser.parse] *)
Definition parse (text : string) : list string :=
  let lines := split LF (strip text) in
  filter (fun line => truthy line = true) lines.

(** [_unique_documents]: [seen] is [documents[:i]]. *)
Fixpoint unique_from (seen documents : list Document) : list Document :=
  match documents with
  | [] => []
  | doc :: rest =>
      if decide (doc ∈ seen) then unique_from (seen ++ [doc]) rest
      else doc :: unique_from (seen ++ [doc]) rest
  end.

Definition _unique_documents (documents : list Document) : list Document :=
  unique_from [] documents.

Definition unique_union (documents : list Document) : list Document :=
  _unique_documents documents.

(** The fields of a [MultiQueryRetriever] the notebook can set; the
    wrapped retriever and the chain are the oracles below. *)
Record MultiQueryRetriever : Type := mkRetriever { include_original : bool }.

(** [MultiQueryRetriever.from_llm(retriever, llm)], every keyword left
    at its default. *)
Definition from_llm : MultiQueryRetriever := mkRetriever false.

Section Pipeline.

(** [llm = OpenAI(temperature=0, ...)] *)
Variable llm : PromptValue -> result string.

(** [vectorstore.as_retriever()]: similarity search with the store's
    default [k]. *)
Variable similarity_search : string -> result (list Document).

(** The library's [DEFAULT_QUERY_PROMPT], already applied to the
    question. *)
Variable DEFAULT_QUERY_PROMPT : string -> string.

Definition llm_invoke (prompt : PromptValue) : M string := fun w =>
  (mkWorld (llm_calls w ++ [prompt]) (searches w) (log w), llm prompt).

Definition retriever_invoke (query : string) : M (list Document) := fun w =>
  (mkWorld (llm_calls w) (searches w ++ [query]) (log w), similarity_search query).

(** [logger.info(f"Generated queries: {lines}")] *)
Definition logger_info (lines : list string) : M unit := fun w =>
  (mkWorld (llm_calls w) (searches w) (log w ++ [lines]), Return tt).

(** [llm_chain = prompt | llm | output_parser] *)
Definition llm_chain (question : string) : M (list string) :=
  response ← llm_invoke (StringPromptValue (DEFAULT_QUERY_PROMPT question));
  mret (parse response).

Definition generate_queries (question : string) : M (list string) :=
  lines ← llm_chain question;
  _ ← logger_info lines;
  mret lines.

(** The loop of [retrieve_documents]; [documents] is the accumulator. *)
Fixpoint retrieve_into (documents : list Document) (queries : list string)
    : M (list Document) :=
  match queries with
  | [] => mret documents
  | query :: rest =>
      docs ← retriever_invoke query;
      retrieve_into (documents ++ docs) rest
  end.

Definition retrieve_documents (queries : list string) : M (list Document) :=
  retrieve_into [] queries.

Definition _get_relevant_documents (self : MultiQueryRetriever) (query : string)
    : M (list Document) :=
  queries ← generate_queries query;
  let queries := if include_original self then queries ++ [query] else queries in
  documents ← retrieve_documents queries;
  mret (unique_union documents).

(** [retriever = MultiQueryRetriever.from_llm(vectorstore.as_retriever(), llm)]
    and its [invoke]. *)
Definition retriever : MultiQueryRetriever := from_llm.

Definition retrieve (question : string) : M (list Document) :=
  _get_relevant_documents retriever question.

(** *** The answer chain *)

(** [LLM_CONTEXT_PROMPT] applied to its two inputs. *)
Definition context_prompt (context question : string) : result PromptValue :=
  content ← format LLM_CONTEXT_PROMPT
    (<["question" := PyStr question]> {[ "context" := PyStr context ]});
  Return (ChatPromptValue [HumanMessage content]).

(** [_context = RunnableParallel(context=retriever | _combine_documents,
    question=RunnablePassthrough())] *)
Definition _context (question : string) : M (string * string) :=
  docs ← retrieve question;
  context ← lift (_combine_documents docs);
  mret (context, question).

(** [chain = _context | LLM_CONTEXT_PROMPT | llm] *)
Definition chain (question : string) : M string :=
  inputs ← _context question;
  prompt ← lift (context_prompt inputs.1 inputs.2);
  llm_invoke prompt.

(** The part of [chain] downstream of the retriever: the chunks are
    combined, the prompt is filled in, the model is called. *)
Definition synthesize (question : string) (chunks : list Document) : M string :=
  context ← lift (_combine_documents chunks);
  prompt ← lift (context_prompt context question);
  llm_invoke prompt.

End Pipeline.

End Chain.

(** ** The run recorded in the notebook, and variations of it *)

Module NasaRun.

Import PyStr Chain.

Definition question : string := "what is the nasa sales team?".

(** The three queries of the notebook's [Generated queries] log line. *)
Definition query1 : string := "1. Can you provide information on the sales team at NASA?".
Definition query2 : string := "2. How does the sales team operate within NASA?".
Definition query3 : string := "3. What are the responsibilities of the NASA sales team?".

(** A completion that yields them: two blank lines, then one query per
    line. *)
Definition response : string :=
  nl +:+ nl +:+ query1 +:+ nl +:+ query2 +:+ nl +:+ query3.

Definition answer : string := "The NASA sales team is a part of the Americas region.".

Definition llm (prompt : PromptValue) : result string :=
  match prompt with
  | StringPromptValue _ => Return response
  | ChatPromptValue _ => Return answer
  end.

Definition DEFAULT_QUERY_PROMPT (q : string) : string :=
  "Provide these alternative questions separated by newlines. Original question: " +:+ q.

Definition overview : Document :=
  mkDocument "Our sales organization is divided into four regions."
    (<["name" := PyStr "Sales Organization Overview"]>
       (<["seq_num" := PyInt 12]> {[ "source" := PyStr "temp.json" ]}))
    None.

(** The same text, stored under another record. *)
Definition overview_copy : Document :=
  mkDocument (page_content overview)
    (<["name" := PyStr "Sales Engineering Collaboration"]>
       (<["seq_num" := PyInt 7]> {[ "source" := PyStr "temp.json" ]}))
    None.

Definition collaboration : Document :=
  mkDocument "Engineers and the sales team work together."
    (<["name" := PyStr "Sales Engineering Collaboration"]>
       (<["seq_num" := PyInt 7]> {[ "source" := PyStr "temp.json" ]}))
    None.

(** Every query finds the overview chunk. *)
Definition similarity_search (query : string) : result (list Document) :=
  Return [overview].

(** The second query also finds the copy. *)
Definition search_with_copy (query : string) : result (list Document) :=
  if decide (query = query2) then Return [overview; overview_copy]
  else Return [overview].

(** The search for the second query fails, the others succeed. *)
Definition search_failing_once (query : string) : result (list Document) :=
  if decide (query = query2) then Raise (ServiceError "connection timed out")
  else Return [overview].

Definition w0 : World := mkWorld [] [] [].

(** Two chunks named A and B. *)
Definition chunkA : Document := mkDocument "alpha" {[ "name" := PyStr "A" ]} None.
Definition chunkB : Document := mkDocument "beta" {[ "name" := PyStr "B" ]} None.

(** A cluster that already holds an older chunk, and a batch in which
    the second document cannot be indexed. *)
Definition old_cluster : Ingest.ES := {[ "index_store" := [collaboration] ]}.

Definition index_error (es : Ingest.ES) (doc : Document) : option exn :=
  if decide (doc = chunkB) then Some (ServiceError "rate limit") else None.

Definition batch : list Document := [chunkA; chunkB; overview].

End NasaRun.

(** ** Vocabulary of the specification *)

Module Stated.

Import PyStr.

Definition is_digit (c : ascii) : bool :=
  let n := nat_of_ascii c in (48 <=? n) && (n <=? 57).

Fixpoint skip_digits (s : string) : string :=
  match s with
  | EmptyString => EmptyString
  | String c s' => if is_digit c then skip_digits s' else s
  end.

(** A leading enumeration marker: a hyphen, or a number followed by a
    full stop. *)
Definition has_enumeration_marker (s : string) : bool :=
  match s with
  | EmptyString => false
  | String c s' =>
      if is_digit c then startswith "." (skip_digits s')
      else bool_decide (c = chr 45)
  end.

(** A variant as the specification describes it. *)
Definition clean_variant (v : string) : Prop :=
  strip v = v ∧ v ≠ EmptyString ∧ has_enumeration_marker v = false.

End Stated.

(** ** The end of the indexing cell *)

Module Cell.

Import Ingest Chain.

(** How a cell ends: it runs to its last line, or stops at a name that
    is not bound. *)
Inductive outcome (A : Type) : Type :=
  | Done (a : A)
  | NameError (name : string).

Arguments Done {A} a.
Arguments NameError {A} name.

(** [retriever = MultiQueryRetriever.from_llm(vectorstore.as_retriever(), llm)]:
    the name [vectorstore] is bound only by a call of the loop that
    returned, the assignment in the earlier cell being commented out. *)
Definition build_retriever (nb : Notebook)
    : outcome (ElasticsearchStore * MultiQueryRetriever) :=
  match vectorstore nb with
  | Some vs => Done (vs, from_llm)
  | None => NameError "vectorstore"
  end.

(** The indexing cell: the loop, then the retriever. *)
Definition indexing_cell (index_error : ES -> Document -> option exn)
    (docs : list Document) (nb : Notebook)
    : outcome (ElasticsearchStore * MultiQueryRetriever) :=
  build_retriever (index_loop index_error 0 docs nb).

End Cell.

(** ** Further runs *)

Module MoreRuns.

Import PyStr Chain NasaRun.

(** The language model is out of quota. *)
Definition llm_down (prompt : PromptValue) : result string :=
  Raise (ServiceError "quota exceeded").

(** The model answers the expansion prompt with blanks only. *)
Definition llm_blank (prompt : PromptValue) : result string :=
  match prompt with
  | StringPromptValue _ => Return ("  " +:+ nl +:+ " ")
  | ChatPromptValue _ => Return answer
  end.

(** A chunk indexed by other tooling, without a name. *)
Definition anonymous : Document :=
  mkDocument "Text of unknown origin." {[ "source" := PyStr "other.json" ]} None.

Definition search_anonymous (query : string) : result (list Document) :=
  Return [anonymous].

(** A record with a text and a name, and the same record without the
    text. *)
Definition record_full : gmap string Ingest.json :=
  <["content" := Ingest.JStr "Our sales organization"]>
    {[ "name" := Ingest.JStr "Sales Organization Overview" ]}.

Definition record_bare : gmap string Ingest.json :=
  {[ "name" := Ingest.JStr "Sales Organization Overview" ]}.

(** What [JSONLoader] hands to [metadata_func] for the first record. *)
Definition loader_metadata : gmap string pyval :=
  <["seq_num" := PyInt 1]> {[ "source" := PyStr "temp.json" ]}.

Definition repr (v : Ingest.json) : string := "None".

Definition fresh : Ingest.Notebook := Ingest.mkNotebook ∅ None [] [].

End MoreRuns.

(** * Properties *)

(** ** Ingestion *)

Section MetadataFuncFacts.

Import Ingest.

Variable repr : json -> string.

(** C9. [metadata_func] has no raising path (it is a total function of
    the record and the metadata it is given), and in the mapping it
    returns each of [name], [summary], [url], [category] and
    [updated_at] is bound to a [str]: the record's field coerced with
    [str], or the empty string when the record has no such field.  The
    other keys of the metadata are kept. *)
Theorem metadata_func_total (record : gmap string json) (metadata : gmap string pyval) :
  Forall (fun key =>
      metadata_func repr record metadata !! key
      = Some (PyStr match record !! key with
                    | Some v => str repr v
                    | None => EmptyString
                    end))
    metadata_keys
  ∧ dom (metadata_func repr record metadata)
    = dom metadata ∪ list_to_set metadata_keys.
Proof.
  split.
  - unfold metadata_keys, metadata_func, get.
    repeat constructor;
      repeat (rewrite lookup_insert_ne by done);
      rewrite lookup_insert_eq; by destruct (record !! _).
  - unfold metadata_func, metadata_keys. rewrite !dom_insert_L.
    apply set_eq. intros key. simpl.
    rewrite !elem_of_union, !elem_of_singleton, elem_of_empty. tauto.
Qed.

End MetadataFuncFacts.

Section IndexingFacts.

Import Ingest.

Variable index_error : ES -> Document -> option exn.

Lemma index_loop_app (l1 l2 : list Document) (i : nat) (nb : Notebook) :
  index_loop index_error i (l1 ++ l2) nb
  = index_loop index_error (i + length l1) l2 (index_loop index_error i l1 nb).
Proof.
  revert i nb. induction l1 as [|d l1 IH]; intros i nb; simpl.
  - by rewrite Nat.add_0_r.
  - rewrite IH. f_equal. lia.
Qed.

Lemma attempted_index_step (i : nat) (doc : Document) (nb : Notebook) :
  attempted (index_step index_error i doc nb) = attempted nb ++ [(i, doc)].
Proof.
  unfold index_step. by destruct (from_documents _ _ _) as [es' [e|vs]].
Qed.

Lemma attempted_index_loop (docs : list Document) (i : nat) (nb : Notebook) :
  attempted (index_loop index_error i docs nb) = attempted nb ++ enumerate i docs.
Proof.
  revert i nb. induction docs as [|d docs IH]; intros i nb; simpl.
  - by rewrite app_nil_r.
  - by rewrite IH, attempted_index_step, <- app_assoc.
Qed.

Lemma stdout_index_step (i : nat) (doc : Document) (nb : Notebook) :
  stdout (index_step index_error i doc nb)
  = stdout nb ++ match index_error (es nb) doc with
                 | Some e => [FailedToIndex i (metadata doc); ErrorLine e]
                 | None => []
                 end.
Proof.
  unfold index_step, from_documents.
  destruct (index_error _ _); simpl; [done | by rewrite app_nil_r].
Qed.

Lemma stdout_index_loop (docs : list Document) (i : nat) (nb : Notebook) :
  ∃ later, stdout (index_loop index_error i docs nb) = stdout nb ++ later.
Proof.
  revert i nb. induction docs as [|d docs IH]; intros i nb; simpl.
  - exists []. by rewrite app_nil_r.
  - destruct (IH (S i) (index_step index_error i d nb)) as [later ->].
    rewrite stdout_index_step, <- app_assoc. eauto.
Qed.

(** C7. The indexing loop handles failures per document.  For the
    document at any position [i] of the batch: the loop reaches it
    whatever happened before, and goes on with the documents after it
    whatever happens at [i]; every document of the batch is sent to the
    store, in order; when the call for it raises [e], exactly the two
    lines naming [i], the document's metadata and [e] are printed, and
    when it returns nothing is printed; what was printed stays. *)
Theorem indexing_failures_are_per_document
    (docs : list Document) (nb : Notebook) (i : nat) (doc : Document) :
  docs !! i = Some doc →
  let before := index_loop index_error 0 (take i docs) nb in
  let after := index_step index_error i doc before in
  let final := index_loop index_error 0 docs nb in
  final = index_loop index_error (S i) (drop (S i) docs) after
  ∧ attempted final = attempted nb ++ enumerate 0 docs
  ∧ (∃ later, stdout final = stdout after ++ later)
  ∧ stdout after
    = stdout before ++ match index_error (es before) doc with
                       | Some e => [FailedToIndex i (metadata doc); ErrorLine e]
                       | None => []
                       end.
Proof.
  intros Hi before after final.
  assert (Hfinal : final = index_loop index_error (S i) (drop (S i) docs) after).
  { subst final after before.
    rewrite <- (take_drop_middle docs i doc Hi) at 1.
    rewrite index_loop_app. simpl.
    rewrite length_take_le by (apply Nat.lt_le_incl; eapply lookup_lt_Some; eauto).
    done. }
  split; [done|]. split; [apply attempted_index_loop|]. split.
  - rewrite Hfinal. apply stdout_index_loop.
  - apply stdout_index_step.
Qed.

Lemma stored_index_step (i : nat) (doc : Document) (nb : Notebook) :
  stored (es (index_step index_error i doc nb))
  = stored (es nb) ++ match index_error (es nb) doc with
                      | Some _ => []
                      | None => [doc]
                      end.
Proof.
  unfold index_step, from_documents.
  destruct (index_error _ _); simpl; [by rewrite app_nil_r|].
  unfold stored at 1. by rewrite lookup_insert_eq.
Qed.

Lemma other_index_step (i : nat) (doc : Document) (nb : Notebook) (name : string) :
  name ≠ "index_store" →
  es (index_step index_error i doc nb) !! name = es nb !! name.
Proof.
  intros Hne. unfold index_step, from_documents.
  destruct (index_error _ _); simpl; [done|]. by rewrite lookup_insert_ne.
Qed.

Lemma stored_index_loop (docs : list Document) (i : nat) (nb : Notebook) :
  ∃ added, stored (es (index_loop index_error i docs nb)) = stored (es nb) ++ added
           ∧ added `sublist_of` docs.
Proof.
  revert i nb. induction docs as [|d docs IH]; intros i nb; simpl.
  - exists []. by rewrite app_nil_r.
  - destruct (IH (S i) (index_step index_error i d nb)) as (added & -> & Hsub).
    rewrite stored_index_step, <- app_assoc.
    eexists; split; [done|].
    destruct (index_error _ _); simpl; by constructor.
Qed.

Lemma other_index_loop (docs : list Document) (i : nat) (nb : Notebook) (name : string) :
  name ≠ "index_store" →
  es (index_loop index_error i docs nb) !! name = es nb !! name.
Proof.
  intros Hne. revert i nb. induction docs as [|d docs IH]; intros i nb; simpl; [done|].
  by rewrite IH, other_index_step.
Qed.

(** C10. A run of the ingestion cells first deletes the index
    [index_store], which cannot fail on the ground that the index is
    absent, and only then indexes.  So whatever the cluster held
    before, the run completes, and afterwards the chunks of
    [index_store] are chunks of this run's batch, in batch order;
    nothing of the index's earlier content is left.  The other indices
    are as they were. *)
Theorem ingestion_resets_the_index (docs : list Document) (es0 : ES) :
  indices_delete "index_store" true es0 = Return (delete "index_store" es0)
  ∧ ∃ nb, ingestion index_error docs es0 = Return nb
      ∧ nb = index_loop index_error 0 docs
               (mkNotebook (delete "index_store" es0) None [] [])
      ∧ stored (es nb) `sublist_of` docs
      ∧ ∀ name, name ≠ "index_store" → es nb !! name = es0 !! name.
Proof.
  assert (Hdel : indices_delete "index_store" true es0
                 = Return (delete "index_store" es0)).
  { unfold indices_delete. destruct (es0 !! "index_store") eqn:Hl; [done|].
    by rewrite delete_id. }
  split; [done|]. unfold ingestion. rewrite Hdel.
  eexists; split; [done|]. split; [done|]. split.
  - destruct (stored_index_loop docs 0
                (mkNotebook (delete "index_store" es0) None [] []))
      as (added & -> & Hsub).
    unfold stored at 1; simpl. by rewrite lookup_delete_eq.
  - intros name Hne. rewrite other_index_loop by done. simpl.
    by rewrite lookup_delete_ne.
Qed.

End IndexingFacts.

(** ** Python strings *)

Section PyStrFacts.

Import PyStr.

Lemma append_nil_l (b : string) : EmptyString +:+ b = b.
Proof. reflexivity. Qed.

Lemma append_cons (x : ascii) (a b : string) : String x a +:+ b = String x (a +:+ b).
Proof. reflexivity. Qed.

Lemma append_assoc (a b c : string) : (a +:+ b) +:+ c = a +:+ (b +:+ c).
Proof.
  induction a as [|x a IH]; [done|]. by rewrite !append_cons, IH.
Qed.

Lemma append_nil_r (a : string) : a +:+ EmptyString = a.
Proof.
  induction a as [|x a IH]; [done|]. by rewrite append_cons, IH.
Qed.

Lemma split_not_nil (sep : ascii) (s : string) : split sep s ≠ [].
Proof.
  destruct s as [|c s]; simpl; [done|].
  destruct (decide (c = sep)); [done|]. by destruct (split sep s).
Qed.

Lemma split_fields_no_sep (sep : ascii) (s : string) :
  Forall (fun field => contains sep field = false) (split sep s).
Proof.
  induction s as [|c s IH]; simpl.
  - by repeat constructor.
  - destruct (decide (c = sep)) as [->|Hne]; [by constructor|].
    destruct (split sep s) as [|field fields].
    + repeat constructor. simpl. by rewrite decide_False.
    + inversion_clear IH. constructor; [|done]. simpl. by rewrite decide_False.
Qed.

Lemma join_empty_cons (x : string) (xs : list string) :
  join EmptyString (x :: xs) = x +:+ join EmptyString xs.
Proof.
  unfold join. destruct xs as [|y ys]; simpl; [by rewrite append_nil_r | done].
Qed.

Lemma join_cons_cons (sep x y : string) (ys : list string) :
  join sep (x :: y :: ys) = x +:+ sep +:+ join sep (y :: ys).
Proof. done. Qed.

Lemma join_empty_split (sep : ascii) (s : string) :
  join EmptyString (split sep s) = remove sep s.
Proof.
  induction s as [|c s IH]; simpl; [done|].
  destruct (decide (c = sep)) as [->|Hne].
  - by rewrite join_empty_cons, IH.
  - pose proof (split_not_nil sep s) as Hnil.
    destruct (split sep s) as [|field fields]; [done|].
    rewrite join_empty_cons in *. by rewrite append_cons, IH.
Qed.

Lemma join_empty_filter_truthy (l : list string) :
  join EmptyString (filter (fun line => truthy line = true) l) = join EmptyString l.
Proof.
  induction l as [|x l IH]; [done|].
  rewrite filter_cons. destruct (decide (truthy x = true)) as [Ht|Hf].
  - by rewrite !join_empty_cons, IH.
  - rewrite join_empty_cons, IH. by destruct x.
Qed.

Lemma split_no_sep (sep : ascii) (x : string) :
  contains sep x = false → split sep x = [x].
Proof.
  induction x as [|c x IH]; simpl; [done|].
  destruct (decide (c = sep)); [done|]. intros Hx. by rewrite IH.
Qed.

Lemma split_app_sep (sep : ascii) (x s : string) :
  contains sep x = false →
  split sep (x +:+ String sep s) = x :: split sep s.
Proof.
  induction x as [|c x IH].
  - rewrite append_nil_l. simpl. by rewrite decide_True.
  - rewrite append_cons. simpl.
    destruct (decide (c = sep)); [done|]. intros Hx. by rewrite IH.
Qed.

Lemma split_join (sep : ascii) (line : string) (lines : list string) :
  Forall (fun l => contains sep l = false) (line :: lines) →
  split sep (join (String sep EmptyString) (line :: lines)) = line :: lines.
Proof.
  revert line. induction lines as [|y ys IH]; intros line Hall.
  - inversion_clear Hall. by apply split_no_sep.
  - inversion_clear Hall. rewrite join_cons_cons, append_cons, append_nil_l.
    rewrite split_app_sep by done. by rewrite IH.
Qed.

Lemma filter_truthy_id (lines : list string) :
  Forall (fun l => l ≠ EmptyString) lines →
  filter (fun line => truthy line = true) lines = lines.
Proof.
  induction 1 as [|x l Hx Hl IH]; [done|].
  rewrite filter_cons, IH. by destruct x.
Qed.

End PyStrFacts.

(** ** Deduplication *)

Section UniqueFacts.

Import Chain.

Lemma elem_of_unique_from (seen documents : list Document) (d : Document) :
  d ∈ unique_from seen documents ↔ d ∈ documents ∧ d ∉ seen.
Proof.
  revert seen. induction documents as [|doc rest IH]; intros seen; simpl.
  - rewrite elem_of_nil. tauto.
  - destruct (decide (doc ∈ seen)) as [Hin|Hout].
    + rewrite IH, elem_of_cons, elem_of_app, list_elem_of_singleton.
      intuition congruence.
    + rewrite !elem_of_cons, IH, elem_of_app, list_elem_of_singleton.
      destruct (decide (d = doc)) as [->|Hne]; intuition congruence.
Qed.

Lemma NoDup_unique_from (seen documents : list Document) :
  NoDup (unique_from seen documents).
Proof.
  revert seen. induction documents as [|doc rest IH]; intros seen; simpl.
  - constructor.
  - destruct (decide (doc ∈ seen)); [apply IH|].
    constructor; [|apply IH].
    rewrite elem_of_unique_from, elem_of_app, list_elem_of_singleton. tauto.
Qed.

Lemma sublist_unique_from (seen documents : list Document) :
  unique_from seen documents `sublist_of` documents.
Proof.
  revert seen. induction documents as [|doc rest IH]; intros seen; simpl.
  - constructor.
  - destruct (decide (doc ∈ seen)); by constructor.
Qed.

Lemma unique_from_app (seen l1 l2 : list Document) :
  unique_from seen (l1 ++ l2) = unique_from seen l1 ++ unique_from (seen ++ l1) l2.
Proof.
  revert seen. induction l1 as [|doc rest IH]; intros seen; simpl.
  - by rewrite app_nil_r.
  - rewrite IH, <- app_assoc. simpl. by destruct (decide (doc ∈ seen)).
Qed.

Lemma unique_from_filter (s t documents : list Document) :
  unique_from (s ++ t) documents
  = filter (fun d => d ∉ s) (unique_from t documents).
Proof.
  revert t. induction documents as [|doc rest IH]; intros t; simpl; [done|].
  rewrite <- app_assoc, IH.
  destruct (decide (doc ∈ t)) as [Ht|Ht].
  - rewrite decide_True; [done|]. rewrite elem_of_app. tauto.
  - rewrite filter_cons. destruct (decide (doc ∉ s)) as [Hs|Hs].
    + rewrite decide_False; [done|]. rewrite elem_of_app. tauto.
    + rewrite decide_True; [done|]. rewrite elem_of_app.
      destruct (decide (doc ∈ s)); tauto.
Qed.

Lemma unique_from_NoDup (seen documents : list Document) :
  NoDup documents → (∀ d, d ∈ documents → d ∉ seen) →
  unique_from seen documents = documents.
Proof.
  intros Hnd. revert seen. induction Hnd as [|doc rest Hout Hnd IH]; intros seen Hseen; simpl.
  - done.
  - rewrite decide_False by (apply Hseen; left).
    f_equal. apply IH. intros d Hd. rewrite elem_of_app, list_elem_of_singleton.
    intros [Hs| ->]; [|done]. by apply (Hseen d); [right|].
Qed.

End UniqueFacts.

(** ** The multi-query retriever *)

Section RetrieverFacts.

Import PyStr Chain.

Variable llm : PromptValue -> result string.
Variable similarity_search : string -> result (list Document).
Variable DEFAULT_QUERY_PROMPT : string -> string.

Lemma generate_queries_run (question : string) (w : World) :
  generate_queries llm DEFAULT_QUERY_PROMPT question w
  = let prompt := StringPromptValue (DEFAULT_QUERY_PROMPT question) in
    match llm prompt with
    | Return text =>
        (mkWorld (llm_calls w ++ [prompt]) (searches w) (log w ++ [parse text]),
         Return (parse text))
    | Raise e => (mkWorld (llm_calls w ++ [prompt]) (searches w) (log w), Raise e)
    end.
Proof.
  unfold generate_queries, llm_chain, llm_invoke, logger_info, mbind, M_bind, mret, M_ret.
  simpl. by destruct (llm _).
Qed.

Lemma retrieve_into_returns (queries : list string) (rs : list (list Document))
    (documents : list Document) (w : World) :
  Forall2 (fun v r => similarity_search v = Return r) queries rs →
  retrieve_into similarity_search documents queries w
  = (mkWorld (llm_calls w) (searches w ++ queries) (log w),
     Return (documents ++ concat rs)).
Proof.
  intros Hall. revert documents w.
  induction Hall as [|v r queries rs Hv Hall IH]; intros documents w; simpl.
  - rewrite !app_nil_r. by destruct w.
  - unfold mbind, M_bind, retriever_invoke. rewrite Hv, IH. simpl.
    by rewrite <- !app_assoc.
Qed.

Lemma retrieve_into_raises (before after : list string) (v : string) (e : exn)
    (rs : list (list Document)) (documents : list Document) (w : World) :
  Forall2 (fun v r => similarity_search v = Return r) before rs →
  similarity_search v = Raise e →
  retrieve_into similarity_search documents (before ++ v :: after) w
  = (mkWorld (llm_calls w) (searches w ++ before ++ [v]) (log w), Raise e).
Proof.
  intros Hall Hv. revert documents w.
  induction Hall as [|v' r before rs Hv' Hall IH]; intros documents w; simpl.
  - unfold mbind, M_bind, retriever_invoke. by rewrite Hv.
  - unfold mbind, M_bind, retriever_invoke. rewrite Hv', IH. simpl.
    by rewrite <- !app_assoc.
Qed.

Lemma retrieve_returns (question text : string) (rs : list (list Document)) (w : World) :
  llm (StringPromptValue (DEFAULT_QUERY_PROMPT question)) = Return text →
  Forall2 (fun v r => similarity_search v = Return r) (parse text) rs →
  retrieve llm similarity_search DEFAULT_QUERY_PROMPT question w
  = (mkWorld (llm_calls w ++ [StringPromptValue (DEFAULT_QUERY_PROMPT question)])
       (searches w ++ parse text) (log w ++ [parse text]),
     Return (unique_union (concat rs))).
Proof.
  intros Hllm Hall.
  unfold retrieve, _get_relevant_documents, retriever, from_llm, retrieve_documents.
  unfold mbind at 1, M_bind at 1. rewrite generate_queries_run. simpl. rewrite Hllm.
  unfold mbind, M_bind. by rewrite (retrieve_into_returns _ rs).
Qed.

Lemma retrieve_raises (question text : string) (before after : list string)
    (v : string) (e : exn) (rs : list (list Document)) (w : World) :
  llm (StringPromptValue (DEFAULT_QUERY_PROMPT question)) = Return text →
  parse text = before ++ v :: after →
  Forall2 (fun v r => similarity_search v = Return r) before rs →
  similarity_search v = Raise e →
  retrieve llm similarity_search DEFAULT_QUERY_PROMPT question w
  = (mkWorld (llm_calls w ++ [StringPromptValue (DEFAULT_QUERY_PROMPT question)])
       (searches w ++ before ++ [v]) (log w ++ [parse text]),
     Raise e).
Proof.
  intros Hllm Hparse Hall Hv.
  unfold retrieve, _get_relevant_documents, retriever, from_llm, retrieve_documents.
  unfold mbind at 1, M_bind at 1. rewrite generate_queries_run. simpl. rewrite Hllm.
  unfold mbind, M_bind. rewrite Hparse.
  by rewrite (retrieve_into_raises before after v e rs).
Qed.

Lemma retrieve_into_searches (queries : list string) (documents : list Document)
    (w : World) :
  ∃ n, searches (retrieve_into similarity_search documents queries w).1
       = searches w ++ take n queries.
Proof.
  revert documents w. induction queries as [|v queries IH]; intros documents w; simpl.
  - exists 0. by rewrite app_nil_r.
  - unfold mbind, M_bind, retriever_invoke.
    destruct (similarity_search v) as [e|docs]; simpl.
    + by exists 1.
    + destruct (IH (documents ++ docs)
                  (mkWorld (llm_calls w) (searches w ++ [v]) (log w))) as [n Hn].
      exists (S n). rewrite Hn. simpl. by rewrite <- app_assoc.
Qed.

Lemma parse_lines (text : string) :
  Forall (fun v => v ≠ EmptyString ∧ contains LF v = false) (parse text).
Proof.
  apply Forall_forall. intros v [Hv Hin]%list_elem_of_filter. split.
  - by destruct v.
  - pose proof (split_fields_no_sep LF (strip text)) as Hall.
    rewrite Forall_forall in Hall. by apply Hall.
Qed.

Lemma parse_join (lines : list string) :
  Forall (fun l => l ≠ EmptyString ∧ contains LF l = false) lines →
  strip (join nl lines) = join nl lines →
  parse (join nl lines) = lines.
Proof.
  intros Hall Hstrip. unfold parse. rewrite Hstrip.
  destruct lines as [|line lines]; [done|].
  unfold nl. rewrite split_join.
  - apply filter_truthy_id. eapply Forall_impl; [done|]. by intros l [? ?].
  - eapply Forall_impl; [done|]. by intros l [? ?].
Qed.

(** C1 (as amended). The queries sent to the passage store are generated
    variants only, in generation order: in every case an initial segment
    of them, and all of them when every search returns.  The original
    question is not added to them: [from_llm] leaves [include_original]
    at [False]. *)
Theorem retrieve_searches_the_variants_only (question text : string) (w : World) :
  llm (StringPromptValue (DEFAULT_QUERY_PROMPT question)) = Return text →
  let after := (retrieve llm similarity_search DEFAULT_QUERY_PROMPT question w).1 in
  include_original retriever = false
  ∧ (∃ n, searches after = searches w ++ take n (parse text))
  ∧ ∀ rs, Forall2 (fun v r => similarity_search v = Return r) (parse text) rs →
          searches after = searches w ++ parse text.
Proof.
  intros Hllm after. split; [done|]. split.
  - subst after.
    unfold retrieve, _get_relevant_documents, retriever, from_llm, retrieve_documents.
    unfold mbind at 1, M_bind at 1. rewrite generate_queries_run. simpl. rewrite Hllm.
    unfold mbind, M_bind.
    destruct (retrieve_into_searches (parse text) []
                (mkWorld
                   (llm_calls w ++ [StringPromptValue (DEFAULT_QUERY_PROMPT question)])
                   (searches w) (log w ++ [parse text]))) as [n Hn].
    exists n.
    by destruct (retrieve_into _ _ _ _) as [w' [e|documents]].
  - intros rs Hall. subst after. by rewrite (retrieve_returns question text rs).
Qed.

(** C2 (as amended). When every search returns, [retrieve] returns the
    concatenated result sets with each distinct [Document] kept exactly
    once, in the order of the concatenation; two documents are the same
    when they are equal as a whole, content and metadata (and
    identifier, when the store attaches one). *)
Theorem retrieve_keeps_each_document_once (question text : string)
    (rs : list (list Document)) (w : World) :
  llm (StringPromptValue (DEFAULT_QUERY_PROMPT question)) = Return text →
  Forall2 (fun v r => similarity_search v = Return r) (parse text) rs →
  ∃ out, (retrieve llm similarity_search DEFAULT_QUERY_PROMPT question w).2 = Return out
    ∧ out = unique_union (concat rs)
    ∧ NoDup out
    ∧ (∀ d, d ∈ out ↔ d ∈ concat rs)
    ∧ out `sublist_of` concat rs.
Proof.
  intros Hllm Hall. exists (unique_union (concat rs)).
  rewrite (retrieve_returns question text rs) by done.
  split; [done|]. split; [done|]. unfold unique_union, _unique_documents.
  split; [apply NoDup_unique_from|]. split; [|apply sublist_unique_from].
  intros d. rewrite elem_of_unique_from, elem_of_nil. tauto.
Qed.

(** C5 (as amended). A failing search is not absorbed.  When the search
    for a variant raises and the searches for the variants before it
    returned, [retrieve] raises that same error, unwrapped, and the
    variants after it are not searched; whether they would have
    succeeded does not matter.  [retrieve] returns the deduplicated
    union when every search returns. *)
Theorem retrieve_raises_the_first_search_error (question text : string) (w : World) :
  llm (StringPromptValue (DEFAULT_QUERY_PROMPT question)) = Return text →
  let run := retrieve llm similarity_search DEFAULT_QUERY_PROMPT question w in
  (∀ before v after rs e,
      parse text = before ++ v :: after →
      Forall2 (fun v r => similarity_search v = Return r) before rs →
      similarity_search v = Raise e →
      run.2 = Raise e ∧ searches run.1 = searches w ++ before ++ [v])
  ∧ (∀ rs, Forall2 (fun v r => similarity_search v = Return r) (parse text) rs →
           run.2 = Return (unique_union (concat rs))).
Proof.
  intros Hllm run. split.
  - intros before v after rs e Hparse Hall Hv. subst run.
    by rewrite (retrieve_raises question text before after v e rs).
  - intros rs Hall. subst run. by rewrite (retrieve_returns question text rs).
Qed.

(** C4 (as amended). The query expander returns the lines of the
    model's response: the response is trimmed as a whole and split at
    newlines, and the empty lines are dropped.  So every variant is
    non-empty and holds no newline, and the variants put end to end are
    the trimmed response without its newlines: inside a line nothing is
    removed, neither an enumeration marker nor blanks around it.  A
    response made of non-empty lines, with no blank at either end, is
    returned line for line. *)
Theorem expander_returns_the_lines (question text : string) (w : World) :
  (generate_queries llm DEFAULT_QUERY_PROMPT question w).2
  = match llm (StringPromptValue (DEFAULT_QUERY_PROMPT question)) with
    | Return response => Return (parse response)
    | Raise e => Raise e
    end
  ∧ Forall (fun v => v ≠ EmptyString ∧ contains LF v = false) (parse text)
  ∧ join EmptyString (parse text) = remove LF (strip text)
  ∧ ∀ lines, Forall (fun l => l ≠ EmptyString ∧ contains LF l = false) lines →
             strip (join nl lines) = join nl lines →
             parse (join nl lines) = lines.
Proof.
  split; [|split; [|split]].
  - rewrite generate_queries_run. simpl. by destruct (llm _).
  - apply parse_lines.
  - unfold parse. by rewrite join_empty_filter_truthy, join_empty_split.
  - apply parse_join.
Qed.

(** C3. When every search returns, the result sets are aggregated in the
    order the variants were issued, which is the order they were
    generated in.  The result is the concatenation of the result sets
    with later repetitions left out and nothing reordered.  A chunk
    stands right after the distinct chunks that precede its first
    occurrence, whatever is returned afterwards.  For every variant,
    what the earlier variants gave comes first, unchanged, and is
    followed by those chunks of the variant that no earlier variant
    returned, in the store's order.  The result set of the first
    variant, free of repetitions as a store returns it, opens the
    result as it is. *)
Theorem retrieve_keeps_first_occurrence_order (question text : string)
    (rs : list (list Document)) (w : World) :
  llm (StringPromptValue (DEFAULT_QUERY_PROMPT question)) = Return text →
  Forall2 (fun v r => similarity_search v = Return r) (parse text) rs →
  ∃ out, (retrieve llm similarity_search DEFAULT_QUERY_PROMPT question w).2 = Return out
    ∧ searches (retrieve llm similarity_search DEFAULT_QUERY_PROMPT question w).1
      = searches w ++ parse text
    ∧ out `sublist_of` concat rs
    ∧ (∀ before d after,
         concat rs = before ++ d :: after → d ∉ before →
         ∃ kept rest, out = kept ++ d :: rest
           ∧ NoDup kept ∧ ∀ x, x ∈ kept ↔ x ∈ before)
    ∧ (∀ rs1 r rs2,
         rs = rs1 ++ r :: rs2 →
         ∃ later, out = unique_union (concat rs1)
                        ++ filter (fun d => d ∉ concat rs1) (unique_union r)
                        ++ later)
    ∧ (∀ r rs2, rs = r :: rs2 → NoDup r → ∃ later, out = r ++ later).
Proof.
  intros Hllm Hall. exists (unique_union (concat rs)).
  rewrite (retrieve_returns question text rs) by done.
  split; [done|]. split; [done|]. unfold unique_union, _unique_documents.
  split; [apply sublist_unique_from|]. split; [|split].
  - intros before d after -> Hd.
    exists (unique_from [] before), (unique_from (before ++ [d]) after).
    rewrite unique_from_app. simpl. rewrite decide_False by done.
    split; [done|]. split; [apply NoDup_unique_from|].
    intros x. rewrite elem_of_unique_from, elem_of_nil. tauto.
  - intros rs1 r rs2 ->. rewrite concat_app. simpl.
    rewrite !unique_from_app. simpl. eexists. f_equal. f_equal.
    rewrite <- (app_nil_r (concat rs1)) at 1. apply unique_from_filter.
  - intros r rs2 -> Hnd. simpl. rewrite unique_from_app. eexists. f_equal.
    apply unique_from_NoDup; [done|]. intros d _. apply not_elem_of_nil.
Qed.

End RetrieverFacts.

(** ** The answer synthesizer *)

Section SynthesizerFacts.

Import PyStr Chain.

Lemma format_document_named (doc : Document) (name : string) :
  metadata doc !! "name" = Some (PyStr name) →
  metadata doc !! "page_content" = None →
  format_document doc LLM_DOCUMENT_PROMPT
  = Return (nl +:+ "---" +:+ nl +:+ "SOURCE: " +:+ name +:+ nl
            +:+ page_content doc +:+ nl +:+ "---" +:+ nl).
Proof.
  intros Hname Hpc. unfold format_document, LLM_DOCUMENT_PROMPT. simpl.
  assert (H1 : (metadata doc ∪ {[ "page_content" := PyStr (page_content doc) ]})
               !! "name" = Some (PyStr name)) by by apply lookup_union_Some_l.
  assert (H2 : (metadata doc ∪ {[ "page_content" := PyStr (page_content doc) ]})
               !! "page_content" = Some (PyStr (page_content doc))).
  { rewrite lookup_union_r by done. apply lookup_singleton_eq. }
  rewrite filter_cons, decide_False by (by rewrite H1).
  rewrite filter_cons, decide_False by (by rewrite H2).
  rewrite filter_nil, H1, H2. simpl. by rewrite !append_assoc.
Qed.

Lemma format_document_returns (doc : Document) :
  is_Some (metadata doc !! "name") →
  ∃ doc_string, format_document doc LLM_DOCUMENT_PROMPT = Return doc_string.
Proof.
  intros [v Hname]. unfold format_document, LLM_DOCUMENT_PROMPT. simpl.
  assert (H1 : (metadata doc ∪ {[ "page_content" := PyStr (page_content doc) ]})
               !! "name" = Some v) by by apply lookup_union_Some_l.
  assert (H2 : is_Some ((metadata doc ∪ {[ "page_content" := PyStr (page_content doc) ]})
               !! "page_content")).
  { apply lookup_union_is_Some. right. by rewrite lookup_singleton_eq. }
  destruct H2 as [c H2].
  rewrite filter_cons, decide_False by (by rewrite H1).
  rewrite filter_cons, decide_False by (by rewrite H2).
  rewrite filter_nil, H1, H2. eauto.
Qed.

Lemma combine_documents_returns (chunks : list Document) :
  Forall (fun d => is_Some (metadata d !! "name")) chunks →
  ∃ context, _combine_documents chunks = Return context.
Proof.
  intros Hall. unfold _combine_documents.
  assert (∃ doc_strings, format_documents chunks LLM_DOCUMENT_PROMPT = Return doc_strings)
    as [doc_strings ->]; [|by eexists].
  induction Hall as [|d chunks Hd Hall [doc_strings IH]]; simpl; [by eexists|].
  destruct (format_document_returns d Hd) as [doc_string ->].
  rewrite IH. by eexists.
Qed.

Lemma context_prompt_filled (context question : string) :
  context_prompt context question
  = Return (ChatPromptValue [HumanMessage
      ("You are an assistant for question-answering tasks. Use the following pieces of retrieved context to answer the question. If you don't know the answer, just say that you don't know. Be as verbose and educational in your response as possible. "
       +:+ nl +:+ "    " +:+ nl +:+ "    context: " +:+ context
       +:+ nl +:+ "    Question: " +:+ dq +:+ question +:+ dq
       +:+ nl +:+ "    Answer:" +:+ nl +:+ "    ")]).
Proof.
  unfold context_prompt, LLM_CONTEXT_PROMPT. simpl.
  rewrite lookup_insert_ne, lookup_singleton_eq, lookup_insert_eq by done.
  simpl. by rewrite !append_assoc.
Qed.

(** C6 (as amended). For two chunks named A and B, the combined context
    is the block of the first, the separator of two newlines, and the
    block of the second; a block starts and ends with a newline, so
    four newlines stand between the two rules. *)
Theorem combine_two_documents (dA dB : Document) (nameA nameB : string) :
  metadata dA !! "name" = Some (PyStr nameA) →
  metadata dA !! "page_content" = None →
  metadata dB !! "name" = Some (PyStr nameB) →
  metadata dB !! "page_content" = None →
  _combine_documents [dA; dB]
  = Return (nl +:+ "---" +:+ nl +:+ "SOURCE: " +:+ nameA +:+ nl
            +:+ page_content dA +:+ nl +:+ "---" +:+ nl
            +:+ nl +:+ nl
            +:+ nl +:+ "---" +:+ nl +:+ "SOURCE: " +:+ nameB +:+ nl
            +:+ page_content dB +:+ nl +:+ "---" +:+ nl).
Proof.
  intros HA HAc HB HBc. unfold _combine_documents. simpl.
  rewrite (format_document_named dA nameA), (format_document_named dB nameB) by done.
  simpl. unfold join. simpl. by rewrite !append_assoc.
Qed.

End SynthesizerFacts.

(** ** The recorded run *)

Section RecordedRun.

Import PyStr Chain NasaRun.

Lemma parse_response : parse response = [query1; query2; query3].
Proof. vm_compute. reflexivity. Qed.

(** C1, as stated, fails on the recorded run: the original question is
    not among the queries sent to the store, let alone the first of
    them. *)
Lemma original_question_is_not_searched :
  let after := (retrieve llm similarity_search DEFAULT_QUERY_PROMPT question w0).1 in
  searches after = [query1; query2; query3]
  ∧ head (searches after) ≠ Some question
  ∧ question ∉ searches after.
Proof.
  assert (Hs : searches (retrieve llm similarity_search DEFAULT_QUERY_PROMPT
                           question w0).1 = [query1; query2; query3])
    by (vm_compute; reflexivity).
  cbv zeta. rewrite Hs. split; [done|]. split; [done|].
  rewrite !elem_of_cons, elem_of_nil. by intros [?|[?|[?|?]]].
Qed.

Lemma retrieve_searches_the_variants_only_witness :
  llm (StringPromptValue (DEFAULT_QUERY_PROMPT question)) = Return response
  ∧ searches (retrieve llm similarity_search DEFAULT_QUERY_PROMPT question w0).1
    = searches w0 ++ parse response.
Proof.
  split; [reflexivity|].
  destruct (retrieve_searches_the_variants_only llm similarity_search
              DEFAULT_QUERY_PROMPT question response w0 eq_refl) as (_ & _ & Hall).
  apply (Hall [[overview]; [overview]; [overview]]).
  rewrite parse_response. by repeat constructor.
Defined.

(** C2, as stated, fails when the overlapping result sets hold two chunks
    with the same text and different metadata: both are kept, so the text
    occurs twice in the result. *)
Lemma equal_content_is_kept_twice :
  search_with_copy query1 = Return [overview]
  ∧ search_with_copy query2 = Return [overview; overview_copy]
  ∧ page_content overview_copy = page_content overview
  ∧ (retrieve llm search_with_copy DEFAULT_QUERY_PROMPT question w0).2
    = Return [overview; overview_copy]
  ∧ ¬ NoDup (page_content <$> [overview; overview_copy]).
Proof.
  split; [reflexivity|]. split; [reflexivity|]. split; [reflexivity|].
  split; [vm_compute; reflexivity|].
  simpl. intros [Hnotin _]%NoDup_cons. apply Hnotin. by left.
Qed.

Lemma retrieve_keeps_each_document_once_witness :
  llm (StringPromptValue (DEFAULT_QUERY_PROMPT question)) = Return response
  ∧ Forall2 (fun v r => search_with_copy v = Return r) (parse response)
      [[overview]; [overview; overview_copy]; [overview]]
  ∧ ∃ out, (retrieve llm search_with_copy DEFAULT_QUERY_PROMPT question w0).2 = Return out
      ∧ NoDup out.
Proof.
  assert (Hall : Forall2 (fun v r => search_with_copy v = Return r) (parse response)
                   [[overview]; [overview; overview_copy]; [overview]]).
  { rewrite parse_response. by repeat constructor. }
  split; [reflexivity|]. split; [exact Hall|].
  destruct (retrieve_keeps_each_document_once llm search_with_copy DEFAULT_QUERY_PROMPT
              question response _ w0 eq_refl Hall) as (out & Hout & _ & Hnd & _).
  by exists out.
Defined.

(** C5, as stated, fails: the search for the second variant raises,
    those for the first and the third return, and [retrieve] raises. *)
Lemma one_failed_search_fails_retrieve :
  search_failing_once query1 = Return [overview]
  ∧ search_failing_once query2 = Raise (ServiceError "connection timed out")
  ∧ search_failing_once query3 = Return [overview]
  ∧ (generate_queries llm DEFAULT_QUERY_PROMPT question w0).2
    = Return [query1; query2; query3]
  ∧ (retrieve llm search_failing_once DEFAULT_QUERY_PROMPT question w0).2
    = Raise (ServiceError "connection timed out").
Proof. repeat split; vm_compute; reflexivity. Qed.

Lemma retrieve_raises_the_first_search_error_witness :
  llm (StringPromptValue (DEFAULT_QUERY_PROMPT question)) = Return response
  ∧ (retrieve llm search_failing_once DEFAULT_QUERY_PROMPT question w0).2
    = Raise (ServiceError "connection timed out")
  ∧ searches (retrieve llm search_failing_once DEFAULT_QUERY_PROMPT question w0).1
    = searches w0 ++ [query1] ++ [query2].
Proof.
  split; [reflexivity|].
  destruct (retrieve_raises_the_first_search_error llm search_failing_once
              DEFAULT_QUERY_PROMPT question response w0 eq_refl) as [Hraise _].
  apply (Hraise [query1] query2 [query3] [[overview]]).
  - apply parse_response.
  - by repeat constructor.
  - reflexivity.
Defined.

(** C4, as stated, fails on the recorded run: the variants keep their
    numbering, as the notebook's log line shows. *)
Lemma expander_keeps_enumeration_markers :
  (generate_queries llm DEFAULT_QUERY_PROMPT question w0).2
  = Return [query1; query2; query3]
  ∧ Stated.has_enumeration_marker query1 = true
  ∧ ¬ Forall Stated.clean_variant [query1; query2; query3].
Proof.
  split; [vm_compute; reflexivity|]. split; [reflexivity|].
  intros Hall. apply Forall_cons in Hall as [(_ & _ & Hmarker) _].
  by vm_compute in Hmarker.
Qed.

(** C6, as stated, fails: between the two blocks stand four newlines,
    not three. *)
Lemma combined_context_is_not_as_stated :
  _combine_documents [chunkA; chunkB]
  ≠ Return (nl +:+ "---" +:+ nl +:+ "SOURCE: A" +:+ nl +:+ "alpha" +:+ nl +:+ "---" +:+ nl
            +:+ nl +:+ nl
            +:+ "---" +:+ nl +:+ "SOURCE: B" +:+ nl +:+ "beta" +:+ nl +:+ "---" +:+ nl).
Proof. intros Heq. vm_compute in Heq. discriminate Heq. Qed.

Lemma combine_two_documents_witness :
  metadata chunkA !! "name" = Some (PyStr "A")
  ∧ metadata chunkA !! "page_content" = None
  ∧ metadata chunkB !! "name" = Some (PyStr "B")
  ∧ metadata chunkB !! "page_content" = None
  ∧ _combine_documents [chunkA; chunkB]
    = Return (nl +:+ "---" +:+ nl +:+ "SOURCE: " +:+ "A" +:+ nl
              +:+ page_content chunkA +:+ nl +:+ "---" +:+ nl
              +:+ nl +:+ nl
              +:+ nl +:+ "---" +:+ nl +:+ "SOURCE: " +:+ "B" +:+ nl
              +:+ page_content chunkB +:+ nl +:+ "---" +:+ nl).
Proof.
  repeat (split; [reflexivity|]).
  apply (combine_two_documents chunkA chunkB "A" "B"); reflexivity.
Defined.

Lemma indexing_failures_are_per_document_witness :
  batch !! 1 = Some chunkB
  ∧ ∃ later,
      Ingest.stdout (Ingest.index_loop index_error 0 batch
                       (Ingest.mkNotebook old_cluster None [] []))
      = [Ingest.FailedToIndex 1 (metadata chunkB);
         Ingest.ErrorLine (ServiceError "rate limit")] ++ later.
Proof.
  split; [reflexivity|].
  destruct (indexing_failures_are_per_document index_error batch
              (Ingest.mkNotebook old_cluster None [] []) 1 chunkB eq_refl)
    as (_ & _ & [later Hlater] & Hout).
  exists later. rewrite Hlater, Hout. reflexivity.
Defined.

End RecordedRun.


(** * Further properties *)

(** ** [metadata_func] *)

Section MetadataFuncMore.

Import Ingest.

Variable repr : json -> string.

Lemma not_elem_of_metadata_keys (key : string) :
  key ∉ metadata_keys →
  key ≠ "name" ∧ key ≠ "summary" ∧ key ≠ "url" ∧ key ≠ "category" ∧ key ≠ "updated_at".
Proof.
  unfold metadata_keys. rewrite !not_elem_of_cons. tauto.
Qed.

Lemma metadata_func_off_keys (record : gmap string json)
    (metadata : gmap string pyval) (key : string) :
  key ∉ metadata_keys →
  metadata_func repr record metadata !! key = metadata !! key.
Proof.
  intros (H1 & H2 & H3 & H4 & H5)%not_elem_of_metadata_keys.
  unfold metadata_func. by rewrite !lookup_insert_ne.
Qed.

Lemma metadata_func_on_keys (record : gmap string json)
    (metadata : gmap string pyval) (key : string) :
  key ∈ metadata_keys →
  metadata_func repr record metadata !! key
  = Some (PyStr (str repr (get record key (JStr EmptyString)))).
Proof.
  unfold metadata_keys. rewrite !elem_of_cons, elem_of_nil.
  unfold metadata_func.
  intros [->|[->|[->|[->|[->|[]]]]]];
    repeat (rewrite lookup_insert_ne by done); by rewrite lookup_insert_eq.
Qed.

(** X1. [metadata_func] touches the five keys it populates and nothing
    else: every other entry of the metadata it is given (the loader's
    [source] and [seq_num] among them) comes back with the value it
    had, and a key that was absent stays absent.  The result is the five
    fresh entries laid over the metadata given. *)
Theorem metadata_func_keeps_other_entries (record : gmap string json)
    (metadata : gmap string pyval) (key : string) :
  key ∉ metadata_keys →
  metadata_func repr record metadata !! key = metadata !! key
  ∧ metadata_func repr record metadata = metadata_func repr record ∅ ∪ metadata.
Proof.
  intros Hkey. split; [by apply metadata_func_off_keys|].
  apply map_eq. intros k. rewrite lookup_union.
  destruct (decide (k ∈ metadata_keys)) as [Hin|Hout].
  - rewrite !metadata_func_on_keys by done. by destruct (metadata !! k).
  - rewrite !metadata_func_off_keys by done. rewrite lookup_empty.
    by destruct (metadata !! k).
Qed.

(** X2. Applying [metadata_func] a second time with the same record
    changes nothing, and what the five keys held before the first
    application does not matter: two metadata dicts that agree outside
    the five keys give the same result. *)
Theorem metadata_func_idempotent (record : gmap string json)
    (metadata metadata' : gmap string pyval) :
  metadata_func repr record (metadata_func repr record metadata)
  = metadata_func repr record metadata
  ∧ ((∀ key, key ∉ metadata_keys → metadata !! key = metadata' !! key) →
     metadata_func repr record metadata = metadata_func repr record metadata').
Proof.
  split.
  - apply map_eq. intros key. destruct (decide (key ∈ metadata_keys)) as [Hin|Hout].
    + by rewrite !metadata_func_on_keys.
    + by rewrite !metadata_func_off_keys.
  - intros Hagree. apply map_eq. intros key.
    destruct (decide (key ∈ metadata_keys)) as [Hin|Hout].
    + by rewrite !metadata_func_on_keys.
    + rewrite !metadata_func_off_keys by done. by apply Hagree.
Qed.

(** X3. The result depends on the record through its five fields only:
    two records that agree on [name], [summary], [url], [category] and
    [updated_at] give the same metadata, whatever else they hold.  In
    particular the record's [content] is never copied into the
    metadata. *)
Theorem metadata_func_reads_five_fields (record record' : gmap string json)
    (metadata : gmap string pyval) :
  Forall (fun key => record !! key = record' !! key) metadata_keys →
  metadata_func repr record metadata = metadata_func repr record' metadata.
Proof.
  unfold metadata_keys. rewrite !Forall_cons.
  intros (H1 & H2 & H3 & H4 & H5 & _).
  unfold metadata_func, get. by rewrite H1, H2, H3, H4, H5.
Qed.

End MetadataFuncMore.

(** ** The indexing loop *)

Section IndexingMore.

Import Ingest Cell.

Variable index_error : ES -> Document -> option exn.

Lemma vectorstore_index_step (i : nat) (doc : Document) (nb : Notebook) :
  vectorstore (index_step index_error i doc nb)
  = match index_error (es nb) doc with
    | Some _ => vectorstore nb
    | None => Some (mkStore "index_store")
    end.
Proof.
  unfold index_step, from_documents. by destruct (index_error _ _).
Qed.

Lemma vectorstore_index_loop (docs : list Document) (i : nat) (nb : Notebook) :
  ∃ added, stored (es (index_loop index_error i docs nb)) = stored (es nb) ++ added
    ∧ vectorstore (index_loop index_error i docs nb)
      = match added with
        | [] => vectorstore nb
        | _ :: _ => Some (mkStore "index_store")
        end.
Proof.
  revert i nb. induction docs as [|d docs IH]; intros i nb; simpl.
  - exists []. by rewrite app_nil_r.
  - destruct (IH (S i) (index_step index_error i d nb)) as (added & -> & ->).
    rewrite stored_index_step, vectorstore_index_step, <- app_assoc.
    eexists; split; [done|].
    destruct (index_error _ _); simpl; [done|]. by destruct added.
Qed.

Lemma reports_index_loop (docs : list Document) (start : nat) (nb : Notebook)
    (i : nat) (md : gmap string pyval) :
  FailedToIndex i md ∈ stdout (index_loop index_error start docs nb) →
  FailedToIndex i md ∈ stdout nb
  ∨ ∃ k doc e, i = start + k ∧ docs !! k = Some doc ∧ md = metadata doc
      ∧ index_error (es (index_loop index_error start (take k docs) nb)) doc = Some e.
Proof.
  revert start nb. induction docs as [|d docs IH]; intros start nb; simpl; [by left|].
  intros [Hin|(k & doc & e & -> & Hk & -> & He)]%IH.
  - rewrite stdout_index_step, elem_of_app in Hin. destruct Hin as [Hin|Hin]; [by left|].
    right. exists 0, d. destruct (index_error (es nb) d) as [e|] eqn:He.
    + exists e. rewrite !elem_of_cons, elem_of_nil in Hin.
      destruct Hin as [Heq|[Heq|[]]]; [|done]. injection Heq as -> ->.
      by rewrite Nat.add_0_r.
    + by apply elem_of_nil in Hin.
  - right. exists (S k), doc, e. split; [lia|]. done.
Qed.

(** X4. Every document of the batch leaves exactly one trace: one more
    chunk in the index, or two more printed lines.  So twice the number
    of chunks added plus the number of lines printed is twice the size
    of the batch. *)
Theorem index_loop_stores_or_reports (docs : list Document) (i : nat) (nb : Notebook) :
  let final := index_loop index_error i docs nb in
  2 * length (stored (es final)) + length (stdout final)
  = 2 * length (stored (es nb)) + length (stdout nb) + 2 * length docs.
Proof.
  revert i nb. induction docs as [|d docs IH]; intros i nb; [simpl; lia|].
  pose proof (IH (S i) (index_step index_error i d nb)) as Hrest.
  cbv zeta in Hrest.
  rewrite stored_index_step, stdout_index_step, !length_app in Hrest.
  cbv zeta. simpl index_loop. simpl length.
  destruct (index_error (es nb) d); simpl length in Hrest; lia.
Qed.

(** X5. The loop never reports a document it indexed: a failure line
    printed by the loop carries the position and the metadata of a
    document of the batch whose call raised. *)
Theorem index_loop_reports_only_failures (docs : list Document) (nb : Notebook)
    (i : nat) (md : gmap string pyval) :
  FailedToIndex i md ∈ stdout (index_loop index_error 0 docs nb) →
  FailedToIndex i md ∉ stdout nb →
  ∃ doc e, docs !! i = Some doc ∧ md = metadata doc
    ∧ index_error (es (index_loop index_error 0 (take i docs) nb)) doc = Some e.
Proof.
  intros [Hin|(k & doc & e & -> & Hk & -> & He)]%reports_index_loop Hout; [done|].
  by exists doc, e.
Qed.

(** X6. With [vectorstore] unbound before the loop, the last line of the
    cell stops on a [NameError] exactly when the loop indexed nothing
    (an empty batch, or every call raised); otherwise it builds the
    retriever on the index [index_store]. *)
Theorem indexing_cell_needs_one_success (docs : list Document) (nb : Notebook) :
  vectorstore nb = None →
  (indexing_cell index_error docs nb = NameError "vectorstore"
   ↔ stored (es (index_loop index_error 0 docs nb)) = stored (es nb))
  ∧ (indexing_cell index_error docs nb = NameError "vectorstore"
     ∨ indexing_cell index_error docs nb
       = Done (mkStore "index_store", Chain.from_llm)).
Proof.
  intros Hunbound. unfold indexing_cell, build_retriever.
  destruct (vectorstore_index_loop docs 0 nb) as (added & -> & ->).
  rewrite Hunbound. destruct added as [|d added]; simpl.
  - rewrite app_nil_r. split; [done | by left].
  - split; [|by right]. split; [done|].
    intros Heq. rewrite <- (app_nil_r (stored (es nb))) in Heq at 2.
    by apply app_inv_head in Heq.
Qed.

Lemma ingestion_run (docs : list Document) (es0 : ES) :
  ingestion index_error docs es0
  = Return (index_loop index_error 0 docs
              (mkNotebook (delete "index_store" es0) None [] [])).
Proof.
  unfold ingestion, indices_delete.
  destruct (es0 !! "index_store") eqn:Hl; [done|]. by rewrite delete_id.
Qed.

Section StateIndependent.

(** Whether a document can be indexed does not depend on what the
    cluster holds. *)
Hypothesis index_error_stateless : ∀ es1 es2 doc, index_error es1 doc = index_error es2 doc.

Lemma stored_index_loop_stateless (docs : list Document) (i : nat) (nb : Notebook) :
  stored (es (index_loop index_error i docs nb))
  = stored (es nb) ++ filter (fun doc => index_error ∅ doc = None) docs.
Proof.
  revert i nb. induction docs as [|d docs IH]; intros i nb; simpl.
  - by rewrite app_nil_r.
  - rewrite IH, stored_index_step, <- app_assoc, filter_cons.
    rewrite (index_error_stateless (es nb) ∅ d).
    by destruct (index_error ∅ d).
Qed.

(** X7. When failures depend on the document only, a run of the
    ingestion cells leaves in [index_store] exactly the documents of the
    batch that can be indexed, in batch order, whatever the cluster held
    before; so running the ingestion again on its own result reproduces
    the same index. *)
Theorem ingestion_is_reproducible (docs : list Document) (es0 : ES) :
  ∃ nb, ingestion index_error docs es0 = Return nb
    ∧ stored (es nb) = filter (fun doc => index_error ∅ doc = None) docs
    ∧ ∃ nb', ingestion index_error docs (es nb) = Return nb'
        ∧ stored (es nb') = stored (es nb).
Proof.
  assert (Hrun : ∀ es1,
    stored (es (index_loop index_error 0 docs
                  (mkNotebook (delete "index_store" es1) None [] [])))
    = filter (fun doc => index_error ∅ doc = None) docs).
  { intros es1. rewrite stored_index_loop_stateless. simpl.
    unfold stored at 1. by rewrite lookup_delete_eq. }
  eexists. split; [apply ingestion_run|]. split; [apply Hrun|].
  eexists. split; [apply ingestion_run|]. by rewrite !Hrun.
Qed.

(** X8. The indexing cell on its own only adds: run a second time
    without the cell that deletes the index, it stores every indexable
    document of the batch once more, after the chunks that were there. *)
Theorem index_loop_rerun_duplicates (docs : list Document) (nb : Notebook) :
  let indexable := filter (fun doc => index_error ∅ doc = None) docs in
  stored (es (index_loop index_error 0 docs (index_loop index_error 0 docs nb)))
  = stored (es nb) ++ indexable ++ indexable.
Proof.
  cbv zeta. by rewrite !stored_index_loop_stateless, <- app_assoc.
Qed.

End StateIndependent.

End IndexingMore.

(** ** The combined context *)

Section CombineMore.

Import PyStr Chain.

Lemma format_document_unnamed (doc : Document) :
  metadata doc !! "name" = None →
  format_document doc LLM_DOCUMENT_PROMPT
  = Raise (ValueError (missing_metadata_message ["name"] ["name"])).
Proof.
  intros Hname.
  set (base_info := metadata doc ∪ {[ "page_content" := PyStr (page_content doc) ]}).
  assert (H1 : base_info !! "name" = None).
  { apply lookup_union_None. split; [done|]. by apply lookup_singleton_ne. }
  assert (H2 : is_Some (base_info !! "page_content")).
  { apply lookup_union_is_Some. right. by rewrite lookup_singleton_eq. }
  assert (Hmissing : filter (fun name => base_info !! name = None)
                       ["name"; "page_content"] = ["name"]).
  { destruct H2 as [c H2]. rewrite filter_cons, decide_True by done.
    rewrite filter_cons, decide_False by (by rewrite H2). by rewrite filter_nil. }
  change (format_document doc LLM_DOCUMENT_PROMPT)
    with (match filter (fun name => base_info !! name = None) ["name"; "page_content"] with
          | [] => format LLM_DOCUMENT_PROMPT base_info
          | missing_metadata =>
              Raise (ValueError
                (missing_metadata_message
                   (filter (fun iv => iv ≠ "page_content") ["name"; "page_content"])
                   missing_metadata))
          end).
  by rewrite Hmissing.
Qed.

Lemma format_documents_cases (docs : list Document) :
  (Forall (fun d => is_Some (metadata d !! "name")) docs
   ∧ ∃ doc_strings, format_documents docs LLM_DOCUMENT_PROMPT = Return doc_strings
       ∧ length doc_strings = length docs)
  ∨ (Exists (fun d => metadata d !! "name" = None) docs
     ∧ format_documents docs LLM_DOCUMENT_PROMPT
       = Raise (ValueError (missing_metadata_message ["name"] ["name"]))).
Proof.
  induction docs as [|d docs IH]; simpl.
  - left. split; [constructor|]. by exists [].
  - destruct (metadata d !! "name") as [v|] eqn:Hname.
    + destruct (format_document_returns d) as [doc_string ->]; [by rewrite Hname|].
      destruct IH as [(Hall & doc_strings & -> & Hlen)|(Hex & ->)].
      * left. split; [constructor; [by rewrite Hname | done]|].
        exists (doc_string :: doc_strings). split; [done|]. simpl. by rewrite Hlen.
      * right. split; [by apply Exists_cons_tl | done].
    + right. split; [by apply Exists_cons_hd|].
      by rewrite (format_document_unnamed d Hname).
Qed.

Lemma named_or_unnamed (docs : list Document) :
  Forall (fun d => is_Some (metadata d !! "name")) docs →
  Exists (fun d => metadata d !! "name" = None) docs → False.
Proof.
  intros Hall Hex. apply Exists_exists in Hex as (d & Hin & Hnone).
  rewrite Forall_forall in Hall. destruct (Hall d Hin) as [v Hv]. congruence.
Qed.

Lemma combine_documents_unnamed (docs : list Document) :
  Exists (fun d => metadata d !! "name" = None) docs →
  _combine_documents docs
  = Raise (ValueError (missing_metadata_message ["name"] ["name"])).
Proof.
  intros Hex. unfold _combine_documents.
  destruct (format_documents_cases docs) as [(Hall & _)|(_ & ->)]; [|done].
  destruct (named_or_unnamed docs Hall Hex).
Qed.

Lemma join_app (sep : string) (l1 l2 : list string) :
  l1 ≠ [] → l2 ≠ [] →
  join sep (l1 ++ l2) = join sep l1 +:+ sep +:+ join sep l2.
Proof.
  intros H1 H2. destruct l2 as [|z l2]; [done|]. clear H2.
  induction l1 as [|x l1 IH]; [done|]. destruct l1 as [|y l1].
  - reflexivity.
  - change ((x :: y :: l1) ++ z :: l2) with (x :: y :: (l1 ++ z :: l2)).
    rewrite (join_cons_cons sep x y (l1 ++ z :: l2)).
    change (y :: l1 ++ z :: l2) with ((y :: l1) ++ z :: l2).
    rewrite IH by done. rewrite (join_cons_cons sep x y l1).
    by rewrite !append_assoc.
Qed.

Lemma format_documents_app (l1 l2 : list Document) (s1 s2 : list string) :
  format_documents l1 LLM_DOCUMENT_PROMPT = Return s1 →
  format_documents l2 LLM_DOCUMENT_PROMPT = Return s2 →
  format_documents (l1 ++ l2) LLM_DOCUMENT_PROMPT = Return (s1 ++ s2).
Proof.
  revert s1. induction l1 as [|d l1 IH]; intros s1; simpl.
  - by intros [= <-] ->.
  - destruct (format_document d LLM_DOCUMENT_PROMPT) as [e|doc_string]; [done|]. simpl.
    destruct (format_documents l1 LLM_DOCUMENT_PROMPT) as [e|strs]; [done|]. simpl.
    intros [= <-] H2. by rewrite (IH strs eq_refl H2).
Qed.

(** X9. [_combine_documents] returns exactly when every chunk has a
    [name] in its metadata; given a chunk without one it raises a
    [ValueError], whatever the other chunks are. *)
Theorem combine_documents_needs_names (docs : list Document) :
  ((∃ context, _combine_documents docs = Return context)
   ↔ Forall (fun d => is_Some (metadata d !! "name")) docs)
  ∧ ((∃ msg, _combine_documents docs = Raise (ValueError msg))
     ↔ Exists (fun d => metadata d !! "name" = None) docs).
Proof.
  unfold _combine_documents.
  destruct (format_documents_cases docs) as [(Hall & strs & -> & _)|(Hex & ->)]; simpl.
  - split; split; try done.
    + by eexists.
    + by intros [msg ?].
    + intros Hex. destruct (named_or_unnamed docs Hall Hex).
  - split; split; try done.
    + by intros [context ?].
    + intros Hall. destruct (named_or_unnamed docs Hall Hex).
    + by eexists.
Qed.

(** X10. The combined context of two non-empty runs of chunks put one
    after the other is the context of the first, the separator of two
    newlines, and the context of the second; there is no separator
    before the first block or after the last one, and an empty list of
    chunks gives the empty context. *)
Theorem combine_documents_app (l1 l2 : list Document) (c1 c2 : string) :
  l1 ≠ [] → l2 ≠ [] →
  _combine_documents l1 = Return c1 →
  _combine_documents l2 = Return c2 →
  _combine_documents (l1 ++ l2) = Return (c1 +:+ nl +:+ nl +:+ c2)
  ∧ _combine_documents [] = Return EmptyString.
Proof.
  intros Hne1 Hne2. unfold _combine_documents.
  destruct (format_documents_cases l1) as [(_ & s1 & H1 & Hlen1)|(_ & H1)];
    rewrite H1; [|done].
  destruct (format_documents_cases l2) as [(_ & s2 & H2 & Hlen2)|(_ & H2)];
    rewrite H2; [|done].
  simpl. intros [= <-] [= <-]. split; [|done].
  rewrite (format_documents_app l1 l2 s1 s2 H1 H2). simpl.
  rewrite join_app, !append_assoc; [done| |].
  - destruct s1; [by destruct l1 | done].
  - destruct s2; [by destruct l2 | done].
Qed.

End CombineMore.

(** ** The chain, end to end *)

Section ChainMore.

Import PyStr Chain.

Variable llm : PromptValue -> result string.
Variable similarity_search : string -> result (list Document).
Variable DEFAULT_QUERY_PROMPT : string -> string.

Lemma retrieve_expansion_raises (question : string) (e : exn) (w : World) :
  llm (StringPromptValue (DEFAULT_QUERY_PROMPT question)) = Raise e →
  retrieve llm similarity_search DEFAULT_QUERY_PROMPT question w
  = (mkWorld (llm_calls w ++ [StringPromptValue (DEFAULT_QUERY_PROMPT question)])
       (searches w) (log w),
     Raise e).
Proof.
  intros Hllm.
  unfold retrieve, _get_relevant_documents, retriever, from_llm, retrieve_documents.
  unfold mbind at 1, M_bind at 1. rewrite generate_queries_run. simpl. by rewrite Hllm.
Qed.

Lemma chain_run (question : string) (w : World) :
  chain llm similarity_search DEFAULT_QUERY_PROMPT question w
  = match retrieve llm similarity_search DEFAULT_QUERY_PROMPT question w with
    | (w', Return docs) => synthesize llm question docs w'
    | (w', Raise e) => (w', Raise e)
    end.
Proof.
  unfold chain, _context, synthesize, lift, mbind, M_bind, mret, M_ret.
  destruct (retrieve _ _ _ _ _) as [w' [e|docs]]; [done|].
  by destruct (_combine_documents docs).
Qed.

Lemma synthesize_run (question : string) (chunks : list Document) (w : World) :
  synthesize llm question chunks w
  = match _combine_documents chunks with
    | Return context =>
        match context_prompt context question with
        | Return prompt =>
            (mkWorld (llm_calls w ++ [prompt]) (searches w) (log w), llm prompt)
        | Raise e => (w, Raise e)
        end
    | Raise e => (w, Raise e)
    end.
Proof.
  unfold synthesize, lift, mbind, M_bind, llm_invoke.
  destruct (_combine_documents chunks) as [e|context]; [done|].
  by destruct (context_prompt context question).
Qed.

Lemma retrieve_into_llm_calls (queries : list string) (documents : list Document)
    (w : World) :
  llm_calls (retrieve_into similarity_search documents queries w).1 = llm_calls w.
Proof.
  revert documents w. induction queries as [|v queries IH]; intros documents w; simpl.
  - done.
  - unfold mbind, M_bind, retriever_invoke.
    destruct (similarity_search v) as [e|docs]; simpl; [done|]. by rewrite IH.
Qed.

Lemma retrieve_llm_calls (question : string) (w : World) :
  llm_calls (retrieve llm similarity_search DEFAULT_QUERY_PROMPT question w).1
  = llm_calls w ++ [StringPromptValue (DEFAULT_QUERY_PROMPT question)].
Proof.
  unfold retrieve, _get_relevant_documents, retriever, from_llm, retrieve_documents.
  unfold mbind at 1, M_bind at 1. rewrite generate_queries_run. simpl.
  destruct (llm _) as [e|text]; [done|]. unfold mbind, M_bind.
  pose proof (retrieve_into_llm_calls (parse text) []
    (mkWorld (llm_calls w ++ [StringPromptValue (DEFAULT_QUERY_PROMPT question)])
       (searches w) (log w ++ [parse text]))) as Hcalls.
  by destruct (retrieve_into _ _ _ _) as [w' [e|documents]].
Qed.

(** C8 (as amended). Given chunks that all carry a name, the synthesizer
    fills the template with the combined context and the question,
    sends that one prompt to the language model, and its outcome is the
    model's: the text it returns, unchanged, or the error it raises;
    nothing else is sent to the model or to the store.  Given a chunk
    without a name, the synthesizer raises a [ValueError] and the model
    is not called.  [chain] is [retrieve] followed by the synthesizer. *)
Theorem synthesizer_calls_the_model_once_or_raises (question : string)
    (chunks : list Document) (w : World) :
  (Forall (fun d => is_Some (metadata d !! "name")) chunks →
   ∃ context, _combine_documents chunks = Return context
     ∧ let prompt := ChatPromptValue [HumanMessage
         ("You are an assistant for question-answering tasks. Use the following pieces of retrieved context to answer the question. If you don't know the answer, just say that you don't know. Be as verbose and educational in your response as possible. "
          +:+ nl +:+ "    " +:+ nl +:+ "    context: " +:+ context
          +:+ nl +:+ "    Question: " +:+ dq +:+ question +:+ dq
          +:+ nl +:+ "    Answer:" +:+ nl +:+ "    ")] in
       synthesize llm question chunks w
       = (mkWorld (llm_calls w ++ [prompt]) (searches w) (log w), llm prompt))
  ∧ (Exists (fun d => metadata d !! "name" = None) chunks →
     ∃ msg, synthesize llm question chunks w = (w, Raise (ValueError msg)))
  ∧ chain llm similarity_search DEFAULT_QUERY_PROMPT question w
    = (docs ← retrieve llm similarity_search DEFAULT_QUERY_PROMPT question;
       synthesize llm question docs) w.
Proof.
  split; [|split].
  - intros Hall. destruct (combine_documents_returns chunks Hall) as [context Hctx].
    exists context. split; [done|]. intros prompt.
    by rewrite synthesize_run, Hctx, context_prompt_filled.
  - intros Hex. eexists.
    by rewrite synthesize_run, (combine_documents_unnamed chunks Hex).
  - rewrite chain_run. unfold mbind, M_bind.
    by destruct (retrieve _ _ _ _ _) as [w' [e|docs]].
Qed.

(** X11. When the language model raises on the expansion prompt, [chain]
    raises that error at once: the model has been called once, the
    passage store not at all, and nothing has been logged. *)
Theorem chain_stops_when_expansion_fails (question : string) (e : exn) (w : World) :
  llm (StringPromptValue (DEFAULT_QUERY_PROMPT question)) = Raise e →
  chain llm similarity_search DEFAULT_QUERY_PROMPT question w
  = (mkWorld (llm_calls w ++ [StringPromptValue (DEFAULT_QUERY_PROMPT question)])
       (searches w) (log w),
     Raise e).
Proof.
  intros Hllm. rewrite chain_run.
  by rewrite (retrieve_expansion_raises question e w Hllm).
Qed.

(** X12. When a search raises, [chain] raises that error without asking
    the model for an answer: the only call to the model is the
    expansion, and the searches stop at the failing variant. *)
Theorem chain_stops_when_a_search_fails (question text : string)
    (before after : list string) (v : string) (e : exn)
    (rs : list (list Document)) (w : World) :
  llm (StringPromptValue (DEFAULT_QUERY_PROMPT question)) = Return text →
  parse text = before ++ v :: after →
  Forall2 (fun v r => similarity_search v = Return r) before rs →
  similarity_search v = Raise e →
  chain llm similarity_search DEFAULT_QUERY_PROMPT question w
  = (mkWorld (llm_calls w ++ [StringPromptValue (DEFAULT_QUERY_PROMPT question)])
       (searches w ++ before ++ [v]) (log w ++ [parse text]),
     Raise e).
Proof.
  intros Hllm Hparse Hall Hv. rewrite chain_run.
  by rewrite (retrieve_raises llm similarity_search DEFAULT_QUERY_PROMPT
                question text before after v e rs w Hllm Hparse Hall Hv).
Qed.

(** X13. When the expansion and every search return and the chunks can be
    combined, [chain] calls the model exactly twice, first with the
    expansion prompt and then with the context prompt filled with the
    combined deduplicated chunks and the question as it was asked; it
    searches once per variant, logs the variants once, and its outcome
    is the model's outcome on the second prompt. *)
Theorem chain_answers_from_the_retrieved_chunks (question text context : string)
    (rs : list (list Document)) (w : World) :
  llm (StringPromptValue (DEFAULT_QUERY_PROMPT question)) = Return text →
  Forall2 (fun v r => similarity_search v = Return r) (parse text) rs →
  _combine_documents (unique_union (concat rs)) = Return context →
  ∃ prompt, context_prompt context question = Return prompt
    ∧ chain llm similarity_search DEFAULT_QUERY_PROMPT question w
      = (mkWorld
           (llm_calls w ++ [StringPromptValue (DEFAULT_QUERY_PROMPT question); prompt])
           (searches w ++ parse text) (log w ++ [parse text]),
         llm prompt).
Proof.
  intros Hllm Hall Hctx. eexists. split; [apply context_prompt_filled|].
  rewrite chain_run, (retrieve_returns _ _ _ question text rs w Hllm Hall).
  rewrite synthesize_run, Hctx, context_prompt_filled. simpl.
  by rewrite <- app_assoc.
Qed.

(** X14. When the model answers the expansion prompt with blanks only,
    there is no variant: [chain] searches nothing, and still asks the
    model for an answer, from an empty context. *)
Theorem chain_with_blank_expansion (question text : string) (w : World) :
  llm (StringPromptValue (DEFAULT_QUERY_PROMPT question)) = Return text →
  strip text = EmptyString →
  ∃ prompt, context_prompt EmptyString question = Return prompt
    ∧ chain llm similarity_search DEFAULT_QUERY_PROMPT question w
      = (mkWorld
           (llm_calls w ++ [StringPromptValue (DEFAULT_QUERY_PROMPT question); prompt])
           (searches w) (log w ++ [[]]),
         llm prompt).
Proof.
  intros Hllm Hblank.
  assert (Hparse : parse text = []) by (unfold parse; by rewrite Hblank).
  eexists. split; [apply context_prompt_filled|].
  rewrite chain_run, (retrieve_returns _ _ _ question text [] w Hllm)
    by (rewrite Hparse; constructor).
  assert (Hctx : _combine_documents (unique_union (concat [])) = Return EmptyString)
    by reflexivity.
  rewrite synthesize_run, Hctx, context_prompt_filled, Hparse. simpl.
  by rewrite <- app_assoc, app_nil_r.
Qed.

(** X15. When a retrieved chunk has no [name] in its metadata, [chain]
    raises the [ValueError] of [_combine_documents] after the searches
    and does not ask the model for an answer. *)
Theorem chain_stops_on_a_chunk_without_name (question text : string)
    (rs : list (list Document)) (w : World) :
  llm (StringPromptValue (DEFAULT_QUERY_PROMPT question)) = Return text →
  Forall2 (fun v r => similarity_search v = Return r) (parse text) rs →
  Exists (fun d => metadata d !! "name" = None) (concat rs) →
  ∃ msg, _combine_documents (unique_union (concat rs)) = Raise (ValueError msg)
    ∧ chain llm similarity_search DEFAULT_QUERY_PROMPT question w
      = (mkWorld (llm_calls w ++ [StringPromptValue (DEFAULT_QUERY_PROMPT question)])
           (searches w ++ parse text) (log w ++ [parse text]),
         Raise (ValueError msg)).
Proof.
  intros Hllm Hall Hex.
  assert (Hraise : _combine_documents (unique_union (concat rs))
                   = Raise (ValueError (missing_metadata_message ["name"] ["name"]))).
  { apply combine_documents_unnamed.
    apply Exists_exists in Hex as (d & Hin & Hnone). apply Exists_exists.
    exists d. split; [|done]. unfold unique_union, _unique_documents.
    rewrite elem_of_unique_from, elem_of_nil. tauto. }
  eexists. split; [exact Hraise|].
  rewrite chain_run, (retrieve_returns _ _ _ question text rs w Hllm Hall).
  by rewrite synthesize_run, Hraise.
Qed.

(** X16. Whatever the model and the store do, [chain] calls the model at
    least once and at most twice, the first call being the expansion
    prompt, and keeps the record of the earlier calls. *)
Theorem chain_calls_the_model_at_most_twice (question : string) (w : World) :
  ∃ later, llm_calls (chain llm similarity_search DEFAULT_QUERY_PROMPT question w).1
           = llm_calls w ++ StringPromptValue (DEFAULT_QUERY_PROMPT question) :: later
    ∧ length later ≤ 1.
Proof.
  rewrite chain_run.
  pose proof (retrieve_llm_calls question w) as Hcalls.
  destruct (retrieve _ _ _ _ _) as [w' [e|docs]]; simpl in *.
  - exists []. rewrite Hcalls. split; [done | simpl; lia].
  - rewrite synthesize_run. destruct (_combine_documents docs) as [e|context]; simpl.
    + exists []. rewrite Hcalls. split; [done | simpl; lia].
    + rewrite context_prompt_filled. simpl. rewrite Hcalls, <- app_assoc. simpl.
      eexists [_]. split; [done | simpl; lia].
Qed.

End ChainMore.

(** ** The parser and the deduplication, again *)

Section ParseMore.

Import PyStr Chain.

#[local] Abbreviation lines_of T := (filter (fun line => truthy line = true) (split LF T)).

Lemma lstrip_head (s : string) :
  lstrip s = EmptyString ∨ ∃ c r, lstrip s = String c r ∧ is_space c = false.
Proof.
  induction s as [|a s IH]; simpl; [by left|].
  destruct (is_space a) eqn:Ha; [done|]. right. by exists a, s.
Qed.

Lemma lstrip_nonspace (c : ascii) (r : string) :
  is_space c = false → lstrip (String c r) = String c r.
Proof. intros Hc. simpl. by rewrite Hc. Qed.

Lemma rstrip_cons_nonspace (c : ascii) (r : string) :
  is_space c = false → ∃ r', rstrip (String c r) = String c r'.
Proof.
  intros Hc. simpl. destruct (rstrip r); [rewrite Hc|]; by eexists.
Qed.

Lemma strip_head (text : string) :
  strip text = EmptyString ∨ ∃ c r, strip text = String c r ∧ is_space c = false.
Proof.
  unfold strip. destruct (lstrip_head text) as [->|(c & r & -> & Hc)]; [by left|].
  right. destruct (rstrip_cons_nonspace c r Hc) as [r' ->]. by exists c, r'.
Qed.

Lemma split_cons_nonsep (sep c : ascii) (r : string) :
  c ≠ sep → ∃ f fs, split sep (String c r) = String c f :: fs.
Proof.
  intros Hc. simpl. rewrite decide_False by done.
  destruct (split sep r) as [|f fs]; by eexists _, _.
Qed.

Lemma nonspace_not_LF (c : ascii) : is_space c = false → c ≠ LF.
Proof. by intros Hc ->. Qed.

Lemma rstrip_cons (c : ascii) (s : string) :
  rstrip (String c s)
  = match rstrip s with
    | EmptyString => if is_space c then EmptyString else String c EmptyString
    | String a r => String c (String a r)
    end.
Proof. reflexivity. Qed.

Lemma rstrip_idem (s : string) : rstrip (rstrip s) = rstrip s.
Proof.
  induction s as [|c s IH]; [done|]. rewrite rstrip_cons.
  destruct (rstrip s) as [|a r] eqn:HR.
  - destruct (is_space c) eqn:Hc; [done|]. by rewrite rstrip_cons, Hc.
  - by rewrite rstrip_cons, IH.
Qed.

Lemma rstrip_fixed_cases (c : ascii) (T : string) :
  rstrip (String c T) = String c T →
  (T = EmptyString ∧ is_space c = false) ∨ (T ≠ EmptyString ∧ rstrip T = T).
Proof.
  rewrite rstrip_cons. destruct (rstrip T) as [|a r] eqn:HR.
  - destruct (is_space c) eqn:Hc; [done|]. intros [= <-]. by left.
  - intros [= <-]. right. by split.
Qed.

Lemma rstrip_cons_fixed (c : ascii) (R : string) :
  rstrip R = R → R ≠ EmptyString → rstrip (String c R) = String c R.
Proof.
  intros HR Hne. simpl. rewrite HR. by destruct R.
Qed.

Lemma join_cons_char (sep : string) (c : ascii) (x : string) (l : list string) :
  join sep (String c x :: l) = String c (join sep (x :: l)).
Proof. by destruct l. Qed.

Lemma join_truthy_not_empty (sep : string) (L : list string) :
  Forall (fun line => truthy line = true) L → L ≠ [] → join sep L ≠ EmptyString.
Proof.
  intros Hall Hne. destruct L as [|x L]; [done|].
  apply Forall_cons in Hall as [Hx _]. destruct x as [|a x]; [done|].
  by rewrite join_cons_char.
Qed.

Lemma Forall_truthy_lines (T : string) :
  Forall (fun line => truthy line = true) (lines_of T).
Proof. apply Forall_forall. by intros line [? _]%list_elem_of_filter. Qed.

Lemma lines_of_fixed_not_nil (T : string) :
  rstrip T = T → T ≠ EmptyString → lines_of T ≠ [].
Proof.
  induction T as [|c T IH]; [done|]. intros Hfix _.
  destruct (rstrip_fixed_cases c T Hfix) as [[-> Hc]|[Hne HT]].
  - simpl. rewrite decide_False by by apply nonspace_not_LF. by rewrite filter_cons.
  - specialize (IH HT Hne). simpl. destruct (decide (c = LF)) as [->|Hc].
    + by rewrite filter_cons.
    + destruct (split LF T) as [|f fs]; by rewrite filter_cons.
Qed.

Lemma split_cons (sep c : ascii) (s : string) :
  split sep (String c s)
  = if decide (c = sep) then EmptyString :: split sep s
    else match split sep s with
         | [] => [String c EmptyString]
         | field :: fields => String c field :: fields
         end.
Proof. reflexivity. Qed.

Lemma rstrip_join_lines (T : string) :
  rstrip T = T → rstrip (join nl (lines_of T)) = join nl (lines_of T).
Proof.
  induction T as [|c T IH]; [done|]. intros Hfix.
  destruct (rstrip_fixed_cases c T Hfix) as [[-> Hc]|[Hne HT]].
  - rewrite split_cons, decide_False by by apply nonspace_not_LF.
    simpl split. cbv iota. rewrite filter_cons. simpl truthy. rewrite decide_True by done.
    rewrite filter_nil. change (join nl [String c EmptyString]) with (String c EmptyString).
    rewrite rstrip_cons. simpl rstrip. by rewrite Hc.
  - specialize (IH HT).
    pose proof (lines_of_fixed_not_nil T HT Hne) as Hnil.
    pose proof (join_truthy_not_empty nl _ (Forall_truthy_lines T) Hnil) as Hjoin.
    rewrite split_cons. destruct (decide (c = LF)) as [->|Hc].
    { rewrite filter_cons. simpl truthy. by rewrite decide_False. }
    destruct (split LF T) as [|f fs] eqn:Hsplit; [by destruct (split_not_nil LF T)|].
    rewrite filter_cons in *. simpl truthy. rewrite decide_True by done.
    rewrite join_cons_char.
    destruct f as [|a f].
    + simpl truthy in *. rewrite decide_False in * by done.
      destruct (filter _ fs) as [|y F] eqn:HF; [done|].
      change (join nl (EmptyString :: y :: F)) with (String LF (join nl (y :: F))).
      apply rstrip_cons_fixed; [|done]. by apply rstrip_cons_fixed.
    + simpl truthy in *. rewrite decide_True in * by done.
      by apply rstrip_cons_fixed.
Qed.

(** X17. The parser returns no variant exactly when the response is
    blank, that is, empty once trimmed. *)
Theorem parse_nil_iff_blank (text : string) :
  parse text = [] ↔ strip text = EmptyString.
Proof.
  split.
  - destruct (strip_head text) as [H|(c & r & H & Hc)]; [done|].
    unfold parse. rewrite H.
    destruct (split_cons_nonsep LF c r) as (f & fs & ->); [by apply nonspace_not_LF|].
    by rewrite filter_cons.
  - unfold parse. by intros ->.
Qed.

(** X18. The variants joined by newlines parse back to the same
    variants: writing the parsed list one query per line and parsing
    that text again loses nothing and adds nothing. *)
Theorem parse_join_parse (text : string) :
  parse (join nl (parse text)) = parse text.
Proof.
  apply parse_join; [apply parse_lines|].
  unfold parse. cbv zeta. unfold strip.
  assert (Hl : lstrip (join nl (lines_of (rstrip (lstrip text))))
               = join nl (lines_of (rstrip (lstrip text)))).
  { destruct (strip_head text) as [H|(c & r & H & Hc)]; unfold strip in H; rewrite H.
    - done.
    - destruct (split_cons_nonsep LF c r) as (f & fs & ->); [by apply nonspace_not_LF|].
      rewrite filter_cons. simpl truthy. rewrite decide_True by done.
      rewrite join_cons_char. by apply lstrip_nonspace. }
  rewrite Hl. apply rstrip_join_lines, rstrip_idem.
Qed.

(** X19. Deduplicating a second time changes nothing, and the
    deduplicated list is never longer than the list it was made from. *)
Theorem unique_union_idempotent (documents : list Document) :
  unique_union (unique_union documents) = unique_union documents
  ∧ length (unique_union documents) ≤ length documents.
Proof.
  unfold unique_union, _unique_documents. split.
  - apply unique_from_NoDup; [apply NoDup_unique_from|].
    intros d _. apply not_elem_of_nil.
  - apply sublist_length, sublist_unique_from.
Qed.

End ParseMore.

(** ** Further runs *)

Section FurtherRuns.

Import PyStr Chain NasaRun MoreRuns.

Lemma metadata_func_keeps_other_entries_witness :
  ("source" ∉ Ingest.metadata_keys)
  ∧ (Ingest.metadata_func repr record_full loader_metadata !! "source"
     = Some (PyStr "temp.json")).
Proof.
  assert (Hkey : "source" ∉ Ingest.metadata_keys).
  { unfold Ingest.metadata_keys. rewrite !not_elem_of_cons.
    repeat split; try done. apply not_elem_of_nil. }
  split; [exact Hkey|].
  destruct (metadata_func_keeps_other_entries repr record_full loader_metadata
              "source" Hkey) as [Hsame _].
  rewrite Hsame. reflexivity.
Defined.

Lemma metadata_func_reads_five_fields_witness :
  Forall (fun key => record_full !! key = record_bare !! key) Ingest.metadata_keys
  ∧ Ingest.metadata_func repr record_full loader_metadata
    = Ingest.metadata_func repr record_bare loader_metadata.
Proof.
  assert (Hagree : Forall (fun key => record_full !! key = record_bare !! key)
                     Ingest.metadata_keys)
    by (repeat constructor).
  split; [exact Hagree|].
  exact (metadata_func_reads_five_fields repr record_full record_bare
           loader_metadata Hagree).
Defined.

Lemma batch_stdout :
  Ingest.stdout (Ingest.index_loop index_error 0 batch
                   (Ingest.mkNotebook old_cluster None [] []))
  = [Ingest.FailedToIndex 1 (metadata chunkB);
     Ingest.ErrorLine (ServiceError "rate limit")].
Proof. vm_compute. reflexivity. Qed.

Lemma index_loop_reports_only_failures_witness :
  (Ingest.FailedToIndex 1 (metadata chunkB)
     ∈ Ingest.stdout (Ingest.index_loop index_error 0 batch
                        (Ingest.mkNotebook old_cluster None [] [])))
  ∧ (Ingest.FailedToIndex 1 (metadata chunkB) ∉ ([] : list Ingest.line))
  ∧ ∃ doc e, batch !! 1 = Some doc ∧ metadata chunkB = metadata doc
      ∧ index_error
          (Ingest.es (Ingest.index_loop index_error 0 (take 1 batch)
                        (Ingest.mkNotebook old_cluster None [] []))) doc
        = Some e.
Proof.
  assert (Hin : Ingest.FailedToIndex 1 (metadata chunkB)
                  ∈ Ingest.stdout (Ingest.index_loop index_error 0 batch
                                     (Ingest.mkNotebook old_cluster None [] []))).
  { rewrite batch_stdout. by left. }
  split; [exact Hin|]. split; [apply not_elem_of_nil|].
  apply (index_loop_reports_only_failures index_error batch
           (Ingest.mkNotebook old_cluster None [] []) 1 (metadata chunkB) Hin).
  apply not_elem_of_nil.
Defined.

Lemma indexing_cell_needs_one_success_witness :
  Ingest.vectorstore fresh = None
  ∧ Cell.indexing_cell index_error [chunkB] fresh = Cell.NameError "vectorstore".
Proof.
  split; [reflexivity|].
  destruct (indexing_cell_needs_one_success index_error [chunkB] fresh eq_refl)
    as [[_ Hback] _].
  apply Hback. vm_compute. reflexivity.
Defined.

Lemma index_error_stateless :
  ∀ (es1 es2 : Ingest.ES) (doc : Document), index_error es1 doc = index_error es2 doc.
Proof. reflexivity. Qed.

Lemma ingestion_is_reproducible_witness :
  (∀ (es1 es2 : Ingest.ES) (doc : Document), index_error es1 doc = index_error es2 doc)
  ∧ ∃ nb, Ingest.ingestion index_error batch old_cluster = Return nb
      ∧ Ingest.stored (Ingest.es nb) = [chunkA; overview].
Proof.
  split; [exact index_error_stateless|].
  destruct (ingestion_is_reproducible index_error index_error_stateless batch old_cluster)
    as (nb & Hrun & Hstored & _).
  exists nb. split; [exact Hrun|]. rewrite Hstored. vm_compute. reflexivity.
Defined.

Lemma index_loop_rerun_duplicates_witness :
  (∀ (es1 es2 : Ingest.ES) (doc : Document), index_error es1 doc = index_error es2 doc)
  ∧ Ingest.stored
      (Ingest.es (Ingest.index_loop index_error 0 batch
                    (Ingest.index_loop index_error 0 batch fresh)))
    = [chunkA; overview; chunkA; overview].
Proof.
  split; [exact index_error_stateless|].
  rewrite (index_loop_rerun_duplicates index_error index_error_stateless batch fresh).
  vm_compute. reflexivity.
Defined.

Lemma combine_documents_app_witness :
  [chunkA] ≠ [] ∧ [chunkB] ≠ []
  ∧ ∃ c1 c2, _combine_documents [chunkA] = Return c1
      ∧ _combine_documents [chunkB] = Return c2
      ∧ _combine_documents ([chunkA] ++ [chunkB]) = Return (c1 +:+ nl +:+ nl +:+ c2).
Proof.
  split; [done|]. split; [done|].
  destruct (_combine_documents [chunkA]) as [e|c1] eqn:H1; [by vm_compute in H1|].
  destruct (_combine_documents [chunkB]) as [e|c2] eqn:H2; [by vm_compute in H2|].
  exists c1, c2. split; [done|]. split; [done|].
  by destruct (combine_documents_app [chunkA] [chunkB] c1 c2) as [Happ _].
Defined.

Lemma chain_stops_when_expansion_fails_witness :
  llm_down (StringPromptValue (DEFAULT_QUERY_PROMPT question))
  = Raise (ServiceError "quota exceeded")
  ∧ chain llm_down similarity_search DEFAULT_QUERY_PROMPT question w0
    = (mkWorld [StringPromptValue (DEFAULT_QUERY_PROMPT question)] [] [],
       Raise (ServiceError "quota exceeded")).
Proof.
  split; [reflexivity|].
  exact (chain_stops_when_expansion_fails llm_down similarity_search
           DEFAULT_QUERY_PROMPT question _ w0 eq_refl).
Defined.

Lemma chain_stops_when_a_search_fails_witness :
  llm (StringPromptValue (DEFAULT_QUERY_PROMPT question)) = Return response
  ∧ parse response = [query1] ++ query2 :: [query3]
  ∧ search_failing_once query2 = Raise (ServiceError "connection timed out")
  ∧ (chain llm search_failing_once DEFAULT_QUERY_PROMPT question w0).2
    = Raise (ServiceError "connection timed out")
  ∧ length (llm_calls (chain llm search_failing_once DEFAULT_QUERY_PROMPT question w0).1)
    = 1.
Proof.
  split; [reflexivity|]. split; [apply parse_response|]. split; [reflexivity|].
  rewrite (chain_stops_when_a_search_fails llm search_failing_once DEFAULT_QUERY_PROMPT
             question response [query1] [query3] query2
             (ServiceError "connection timed out") [[overview]] w0 eq_refl
             parse_response).
  - by split.
  - by repeat constructor.
  - reflexivity.
Defined.

Lemma recorded_searches_return :
  Forall2 (fun v r => similarity_search v = Return r) (parse response)
    [[overview]; [overview]; [overview]].
Proof. rewrite parse_response. by repeat constructor. Qed.

Lemma chain_answers_from_the_retrieved_chunks_witness :
  llm (StringPromptValue (DEFAULT_QUERY_PROMPT question)) = Return response
  ∧ Forall2 (fun v r => similarity_search v = Return r) (parse response)
      [[overview]; [overview]; [overview]]
  ∧ (chain llm similarity_search DEFAULT_QUERY_PROMPT question w0).2 = Return answer
  ∧ length (llm_calls (chain llm similarity_search DEFAULT_QUERY_PROMPT question w0).1)
    = 2.
Proof.
  split; [reflexivity|]. split; [exact recorded_searches_return|].
  destruct (_combine_documents
              (unique_union (concat [[overview]; [overview]; [overview]])))
    as [e|context] eqn:Hctx; [by vm_compute in Hctx|].
  destruct (chain_answers_from_the_retrieved_chunks llm similarity_search
              DEFAULT_QUERY_PROMPT question response context _ w0 eq_refl
              recorded_searches_return Hctx) as (prompt & Hprompt & ->).
  split; [|done]. simpl.
  unfold context_prompt in Hprompt.
  destruct (format _ _) in Hprompt; [done|]. by injection Hprompt as <-.
Defined.

Lemma chain_with_blank_expansion_witness :
  llm_blank (StringPromptValue (DEFAULT_QUERY_PROMPT question))
  = Return ("  " +:+ nl +:+ " ")
  ∧ strip ("  " +:+ nl +:+ " ") = EmptyString
  ∧ searches (chain llm_blank similarity_search DEFAULT_QUERY_PROMPT question w0).1 = []
  ∧ (chain llm_blank similarity_search DEFAULT_QUERY_PROMPT question w0).2
    = Return answer.
Proof.
  split; [reflexivity|]. split; [reflexivity|].
  destruct (chain_with_blank_expansion llm_blank similarity_search DEFAULT_QUERY_PROMPT
              question ("  " +:+ nl +:+ " ") w0 eq_refl eq_refl)
    as (prompt & Hprompt & ->).
  split; [done|]. simpl.
  unfold context_prompt in Hprompt.
  destruct (format _ _) in Hprompt; [done|]. by injection Hprompt as <-.
Defined.

Lemma anonymous_searches_return :
  Forall2 (fun v r => search_anonymous v = Return r) (parse response)
    [[anonymous]; [anonymous]; [anonymous]].
Proof. rewrite parse_response. by repeat constructor. Qed.

Lemma chain_stops_on_a_chunk_without_name_witness :
  llm (StringPromptValue (DEFAULT_QUERY_PROMPT question)) = Return response
  ∧ metadata anonymous !! "name" = None
  ∧ ∃ msg, (chain llm search_anonymous DEFAULT_QUERY_PROMPT question w0).2
           = Raise (ValueError msg)
      ∧ length (llm_calls
                  (chain llm search_anonymous DEFAULT_QUERY_PROMPT question w0).1)
        = 1.
Proof.
  split; [reflexivity|]. split; [reflexivity|].
  destruct (chain_stops_on_a_chunk_without_name llm search_anonymous DEFAULT_QUERY_PROMPT
              question response [[anonymous]; [anonymous]; [anonymous]] w0 eq_refl
              anonymous_searches_return) as (msg & _ & ->).
  - by apply Exists_cons_hd.
  - by exists msg.
Defined.

(** C8, as stated, fails for an aggregated result set that holds a chunk
    without a name: the synthesizer raises and the model is not
    called. *)
Lemma synthesizer_without_a_name_calls_no_model :
  (retrieve llm search_anonymous DEFAULT_QUERY_PROMPT question w0).2 = Return [anonymous]
  ∧ llm_calls (synthesize llm question [anonymous] w0).1 = llm_calls w0
  ∧ ∃ msg, (synthesize llm question [anonymous] w0).2 = Raise (ValueError msg).
Proof.
  split; [vm_compute; reflexivity|].
  assert (Hex : Exists (fun d => metadata d !! "name" = None) [anonymous])
    by by apply Exists_cons_hd.
  rewrite synthesize_run, (combine_documents_unnamed [anonymous] Hex).
  split; [done | by eexists].
Qed.

Lemma copy_searches_return :
  Forall2 (fun v r => search_with_copy v = Return r) (parse response)
    [[overview]; [overview; overview_copy]; [overview]].
Proof. rewrite parse_response. by repeat constructor. Qed.

Lemma retrieve_keeps_first_occurrence_order_witness :
  llm (StringPromptValue (DEFAULT_QUERY_PROMPT question)) = Return response
  ∧ Forall2 (fun v r => search_with_copy v = Return r) (parse response)
      [[overview]; [overview; overview_copy]; [overview]]
  ∧ ∃ out later,
      (retrieve llm search_with_copy DEFAULT_QUERY_PROMPT question w0).2 = Return out
      ∧ out = [overview] ++ later.
Proof.
  split; [reflexivity|]. split; [exact copy_searches_return|].
  destruct (retrieve_keeps_first_occurrence_order llm search_with_copy
              DEFAULT_QUERY_PROMPT question response _ w0 eq_refl copy_searches_return)
    as (out & Hout & _ & _ & _ & _ & Hfirst).
  destruct (Hfirst [overview] _ eq_refl) as [later Hlater].
  - apply NoDup_singleton.
  - by exists out, later.
Defined.

End FurtherRuns.
